(** * go-wolfram: the assumptions decoder, the action builder and the
      whole-query decode

    A shallow embedding of [go-wolfram.go].  The functions of the package
    ([Assumptions.UnmarshalJSON], [Assumption.ForActionDisplay],
    [Client.GetQueryResult]) are translated line by line.  The package calls
    four libraries whose sources are not part of it; each is modelled in a
    module of its own, from its documentation and published behaviour:

    - [errors]       github.com/pkg/errors (New, Errorf, WithMessage);
    - [json]         encoding/json and json-iterator in its
                     ConfigCompatibleWithStandardLibrary configuration;
    - [fasttemplate] github.com/valyala/fasttemplate v1.2.1;
    - [url]          net/url (QueryEscape).

    Go's [[]byte] is [list byte], Go's [string] is [string], Go's [int] is
    [Z].  The diagnostic [fmt.Printf] calls write to standard output only and
    are left out. *)

From Stdlib Require Import ZArith NArith Strings.Byte String Ascii List Lia.
From Stdlib Require Import DecimalString.
From stdpp Require Import base option strings list gmap.

Set Warnings "-register-all".
Open Scope string_scope.

Abbreviation bytes := (list byte).

#[global] Instance byte_eq_dec : EqDecision byte := Byte.byte_eq_dec.

(** [byte(n)] for a number already known to fit. *)
Definition byte_of_N (n : N) : byte :=
  match Byte.of_N (n mod 256) with
  | Some b => b
  | None => x00
  end.

(** ** Text

    [unicode/utf8] and [fmt], as far as the package uses them. *)

Module utf8.

(** [utf8.EncodeRune]: a surrogate or a value above U+10FFFF is written as
    U+FFFD. *)
Definition EncodeRune (r : N) : bytes :=
  if (r <? 128)%N then [byte_of_N r]
  else if (r <? 2048)%N then
    [byte_of_N (192 + r / 64); byte_of_N (128 + r mod 64)]
  else if ((55296 <=? r) && (r <? 57344) || (1114111 <? r))%N then
    [xef; xbf; xbd]
  else if (r <? 65536)%N then
    [byte_of_N (224 + r / 4096); byte_of_N (128 + (r / 64) mod 64);
     byte_of_N (128 + r mod 64)]
  else
    [byte_of_N (240 + r / 262144); byte_of_N (128 + (r / 4096) mod 64);
     byte_of_N (128 + (r / 64) mod 64); byte_of_N (128 + r mod 64)].

End utf8.

(** [string(b)] for a byte [b]: the UTF-8 encoding of the code point of that
    value, which is the byte itself below 0x80 and two bytes from there on. *)
Definition string_of_byte (b : byte) : string :=
  string_of_list_byte (utf8.EncodeRune (to_N b)).

Module fmt.

(** [fmt.Sprintf] for formats whose only verb is [%s], with string
    operands. *)
Fixpoint Sprintf (format : string) (args : list string) : string :=
  match format with
  | String "%" (String "s" rest) =>
      match args with
      | a :: args' => (a ++ Sprintf rest args')%string
      | [] => ("%!s(MISSING)" ++ Sprintf rest [])%string
      end
  | String c rest => String c (Sprintf rest args)
  | EmptyString => EmptyString
  end.

End fmt.

(** ** Errors *)

Module errors.

(** An error value: the ones built by the package with pkg/errors, and the
    ones the JSON libraries hand back. *)
Inductive error : Type :=
| New (message : string)
| WithMessage (cause : error) (message : string)
| SyntaxError
| UnmarshalTypeError (value : string) (target : string)
| UnmarshalerError (message : string).

(** [err.Error()].  The texts of the JSON libraries' own errors are not
    modelled beyond their kind. *)
Fixpoint Error (e : error) : string :=
  match e with
  | New m => m
  | WithMessage c m => (m ++ ": " ++ Error c)%string
  | SyntaxError => "invalid character in JSON input"%string
  | UnmarshalTypeError v t =>
      ("json: cannot unmarshal " ++ v ++ " into Go value of type " ++ t)%string
  | UnmarshalerError m => m
  end.

(** [errors.Errorf(format, arg)]: an error whose text is the formatted one. *)
Definition Errorf (format : string) (args : list string) : error :=
  New (fmt.Sprintf format args).

End errors.

Abbreviation error := errors.error.

(** A call either returns or panics. *)
Inductive outcome (A : Type) : Type :=
| Returned (a : A)
| Panicked (reason : string).
Arguments Returned {A} a.
Arguments Panicked {A} reason.

(** ** The records of the response model *)

Record Value := {
  Value_Name : string;
  Value_Description : string;
  Value_Input : string
}.

Record Assumption := {
  Assumption_Values : list Value;
  Assumption_Type : string;
  Assumption_Word : string;
  Assumption_Template : string;
  Assumption_Count : Z
}.

Record Assumptions := {
  Assumptions_Assumption : list Assumption;
  Assumptions_Count : Z
}.

Record ActionAssumption := {
  ActionAssumption_Label : string;
  ActionAssumption_Action : string;
  ActionAssumption_ButtonLabel : string;
  ActionAssumption_Description : string
}.

(** Go's zero values. *)
Definition zero_Value : Value :=
  {| Value_Name := ""; Value_Description := ""; Value_Input := "" |}.

Definition zero_Assumption : Assumption :=
  {| Assumption_Values := []; Assumption_Type := ""; Assumption_Word := "";
     Assumption_Template := ""; Assumption_Count := 0 |}.

Definition zero_Assumptions : Assumptions :=
  {| Assumptions_Assumption := []; Assumptions_Count := 0 |}.

(** ** The JSON libraries

    [encoding/json] (used for the single-object shape) and json-iterator in
    its standard-library-compatible configuration (used for the array shape
    and for the whole document) are modelled by one decoder: the input is
    first parsed as one JSON text (RFC 8259 grammar, as the scanner of
    [encoding/json] accepts it), then stored into the target.

    Modelling choices, none of which a statement below depends on:
    bytes above 0x7f inside a string literal are copied as they are
    ([encoding/json] replaces ill-formed UTF-8 by U+FFFD); an object key is
    matched to a field name without regard to ASCII letter case
    ([encoding/json] also folds U+017F and U+212A to s and k); a mismatch of
    kinds is recorded and decoding goes on, the first error being the one
    returned (as [encoding/json] does; json-iterator stores as it reads and
    stops at the first error, so what it leaves in the target after a failure
    differs); [null] leaves a string field as it is (as [encoding/json] does;
    json-iterator stores the empty string); a slice is rebuilt from
    zero-valued elements on every array (both libraries store into the
    elements the slice already has); there is no limit on nesting; a
    [float64] keeps the number literal it was read from.  The statements
    below speak of the shape of the input, of lengths, of counts and of the
    presence of an error, on which the two libraries agree. *)

Module json.

#[local] Open Scope byte_scope.
#[local] Open Scope list_scope.

(** A parsed JSON text.  A member of an object keeps the raw bytes of its
    value next to the parsed value: a type with an [UnmarshalJSON] method
    is handed those bytes. *)
Inductive value : Type :=
| Null
| Bool (b : bool)
| Number (literal : string)
| String (s : string)
| Array (elements : list value)
| Object (members : list (string * (bytes * value))).

Definition is_ws (b : byte) : bool :=
  (b =? x20) || (b =? x09) || (b =? x0a) || (b =? x0d).

Fixpoint skip_ws (s : bytes) : bytes :=
  match s with
  | b :: r => if is_ws b then skip_ws r else s
  | [] => []
  end.

Definition is_digit (b : byte) : bool :=
  ((48 <=? to_N b) && (to_N b <=? 57))%N.

Definition hex_val (b : byte) : option N :=
  let n := to_N b in
  if ((48 <=? n) && (n <=? 57))%N then Some (n - 48)%N
  else if ((97 <=? n) && (n <=? 102))%N then Some (n - 87)%N
  else if ((65 <=? n) && (n <=? 70))%N then Some (n - 55)%N
  else None.

Definition hex4 (a b c d : byte) : option N :=
  match hex_val a, hex_val b, hex_val c, hex_val d with
  | Some x, Some y, Some z, Some w => Some (((x * 16 + y) * 16 + z) * 16 + w)%N
  | _, _, _, _ => None
  end.

(** The one-letter escapes of a string literal. *)
Definition simple_escape (e : byte) : option byte :=
  if e =? x22 then Some x22
  else if e =? x5c then Some x5c
  else if e =? "/" then Some "/"
  else if e =? "b" then Some x08
  else if e =? "f" then Some x0c
  else if e =? "n" then Some x0a
  else if e =? "r" then Some x0d
  else if e =? "t" then Some x09
  else None.

(** [utf16.DecodeRune] on a high surrogate and what follows it. *)
Definition surrogate_pair (hi : N) (s : bytes) : option (N * bytes) :=
  match s with
  | b :: u :: h1 :: h2 :: h3 :: h4 :: r =>
      if (b =? x5c) && (u =? "u") then
        match hex4 h1 h2 h3 h4 with
        | Some lo =>
            if ((hi <? 56320) && (56320 <=? lo) && (lo <? 57344))%N
            then Some (((hi - 55296) * 1024 + (lo - 56320) + 65536)%N, r)
            else None
        | None => None
        end
      else None
  | _ => None
  end.

(** The body of a string literal, after its opening quote: the decoded
    bytes and what follows the closing quote. *)
Fixpoint string_body (s : bytes) : option (bytes * bytes) :=
  match s with
  | [] => None
  | c :: r =>
      if c =? x22 then Some ([], r)
      else if c =? x5c then
        match r with
        | [] => None
        | e :: r1 =>
            if e =? "u" then
              match r1 with
              | h1 :: h2 :: h3 :: h4 :: r2 =>
                  match hex4 h1 h2 h3 h4 with
                  | None => None
                  | Some u =>
                      if ((55296 <=? u) && (u <? 57344))%N then
                        match r2 with
                        | b :: u' :: g1 :: g2 :: g3 :: g4 :: r3 =>
                            match surrogate_pair u r2 with
                            | Some (rr, _) =>
                                match string_body r3 with
                                | Some (out, rest) => Some (utf8.EncodeRune rr ++ out, rest)
                                | None => None
                                end
                            | None =>
                                match string_body r2 with
                                | Some (out, rest) => Some (utf8.EncodeRune 65533 ++ out, rest)
                                | None => None
                                end
                            end
                        | _ =>
                            match string_body r2 with
                            | Some (out, rest) => Some (utf8.EncodeRune 65533 ++ out, rest)
                            | None => None
                            end
                        end
                      else
                        match string_body r2 with
                        | Some (out, rest) => Some (utf8.EncodeRune u ++ out, rest)
                        | None => None
                        end
                  end
              | _ => None
              end
            else
              match simple_escape e with
              | Some b =>
                  match string_body r1 with
                  | Some (out, rest) => Some (b :: out, rest)
                  | None => None
                  end
              | None => None
              end
        end
      else if (to_N c <? 32)%N then None
      else
        match string_body r with
        | Some (out, rest) => Some (c :: out, rest)
        | None => None
        end
  end.

Fixpoint span_digits (s : bytes) : bytes * bytes :=
  match s with
  | d :: r =>
      if is_digit d then let '(ds, r') := span_digits r in (d :: ds, r')
      else ([], s)
  | [] => ([], [])
  end.

(** The integer part: [0], or a non-zero digit and more digits. *)
Definition scan_int (s : bytes) : option (bytes * bytes) :=
  match s with
  | d :: r =>
      if d =? "0" then Some ([d], r)
      else if is_digit d then let '(ds, r') := span_digits r in Some (d :: ds, r')
      else None
  | [] => None
  end.

Definition scan_frac (s : bytes) : option (bytes * bytes) :=
  match s with
  | d :: r =>
      if d =? "." then
        match span_digits r with
        | ([], _) => None
        | (ds, r') => Some (d :: ds, r')
        end
      else Some ([], s)
  | [] => Some ([], [])
  end.

Definition scan_exp (s : bytes) : option (bytes * bytes) :=
  match s with
  | e :: r =>
      if (e =? "e") || (e =? "E") then
        let '(sign, r1) :=
          match r with
          | c :: r' => if (c =? "+") || (c =? "-") then ([c], r') else ([], r)
          | [] => ([], r)
          end in
        match span_digits r1 with
        | ([], _) => None
        | (ds, r') => Some (e :: sign ++ ds, r')
        end
      else Some ([], s)
  | [] => Some ([], [])
  end.

(** A number literal and what follows it. *)
Definition scan_number (s : bytes) : option (bytes * bytes) :=
  let '(sign, s1) :=
    match s with
    | c :: r => if c =? "-" then ([c], r) else ([], s)
    | [] => ([], s)
    end in
  match scan_int s1 with
  | None => None
  | Some (i, s2) =>
      match scan_frac s2 with
      | None => None
      | Some (f, s3) =>
          match scan_exp s3 with
          | None => None
          | Some (e, s4) => Some (sign ++ i ++ f ++ e, s4)
          end
      end
  end.

(** [s] starts with the literal [w]; what follows it. *)
Fixpoint strip_prefix (w s : bytes) : option bytes :=
  match w, s with
  | [], _ => Some s
  | a :: w', b :: s' => if a =? b then strip_prefix w' s' else None
  | _ :: _, [] => None
  end.

(** A value that is not an array or an object, at the first byte of [s]. *)
Definition scalar (s : bytes) : option (value * bytes) :=
  match s with
  | [] => None
  | c :: r =>
      if c =? x22 then
        match string_body r with
        | Some (b, rest) => Some (String (string_of_list_byte b), rest)
        | None => None
        end
      else if c =? "t" then
        option_map (pair (Bool true)) (strip_prefix ["r"; "u"; "e"] r)
      else if c =? "f" then
        option_map (pair (Bool false)) (strip_prefix ["a"; "l"; "s"; "e"] r)
      else if c =? "n" then
        option_map (pair Null) (strip_prefix ["u"; "l"; "l"] r)
      else
        match scan_number s with
        | Some (lit, rest) => Some (Number (string_of_list_byte lit), rest)
        | None => None
        end
  end.

(** The bytes consumed between [s] and its suffix [rest]. *)
Definition consumed (s rest : bytes) : bytes :=
  take (length s - length rest) s.

(** Recursive descent.  [parse_value] starts at the first byte of a value;
    [parse_elements] after [[] or [,], with at least one element to come;
    [parse_members] after [{] or [,], with at least one member to come.
    Each call consumes at least one byte, so a fuel above the length of the
    input is never used up ([parse_value_fuel] below). *)
Fixpoint parse_value (fuel : nat) (s : bytes) : option (value * bytes) :=
  match fuel with
  | O => None
  | S fuel =>
      match s with
      | [] => None
      | c :: r =>
          if c =? "[" then
            match skip_ws r with
            | c' :: r' =>
                if c' =? "]" then Some (Array [], r')
                else
                  match parse_elements fuel (c' :: r') with
                  | Some (vs, rest) => Some (Array vs, rest)
                  | None => None
                  end
            | [] => None
            end
          else if c =? "{" then
            match skip_ws r with
            | c' :: r' =>
                if c' =? "}" then Some (Object [], r')
                else
                  match parse_members fuel (c' :: r') with
                  | Some (ms, rest) => Some (Object ms, rest)
                  | None => None
                  end
            | [] => None
            end
          else scalar s
      end
  end
with parse_elements (fuel : nat) (s : bytes) : option (list value * bytes) :=
  match fuel with
  | O => None
  | S fuel =>
      match parse_value fuel s with
      | None => None
      | Some (v, r) =>
          match skip_ws r with
          | c :: r' =>
              if c =? "," then
                match parse_elements fuel (skip_ws r') with
                | Some (vs, rest) => Some (v :: vs, rest)
                | None => None
                end
              else if c =? "]" then Some ([v], r')
              else None
          | [] => None
          end
      end
  end
with parse_members (fuel : nat) (s : bytes)
  : option (list (string * (bytes * value)) * bytes) :=
  match fuel with
  | O => None
  | S fuel =>
      match s with
      | q :: r =>
          if q =? x22 then
            match string_body r with
            | None => None
            | Some (k, r1) =>
                match skip_ws r1 with
                | c :: r2 =>
                    if c =? ":" then
                      let s1 := skip_ws r2 in
                      match parse_value fuel s1 with
                      | None => None
                      | Some (v, r3) =>
                          let m := (string_of_list_byte k, (consumed s1 r3, v)) in
                          match skip_ws r3 with
                          | c' :: r4 =>
                              if c' =? "," then
                                match parse_members fuel (skip_ws r4) with
                                | Some (ms, rest) => Some (m :: ms, rest)
                                | None => None
                                end
                              else if c' =? "}" then Some ([m], r4)
                              else None
                          | [] => None
                          end
                      end
                    else None
                | [] => None
                end
            end
          else None
      | [] => None
      end
  end.

(** One JSON text, with white space allowed around it and nothing else. *)
Definition parse (data : bytes) : option value :=
  match parse_value (S (length data)) (skip_ws data) with
  | Some (v, rest) =>
      match skip_ws rest with
      | [] => Some v
      | _ :: _ => None
      end
  | None => None
  end.

(** *** Storing a parsed value into a Go value

    A decoder takes the parsed value and the current contents of the target
    and gives the new contents and the error, if any.  After an error the
    remaining members are still stored and the first error is kept. *)

Definition Dec (A : Type) : Type := (A * option error)%type.

#[global] Instance Dec_ret : MRet Dec := λ A x, (x, None).

#[global] Instance Dec_bind : MBind Dec := λ A B f m,
  let '(x, e) := m in
  let '(y, e') := f x in
  (y, match e with Some _ => e | None => e' end).

Definition kind (v : value) : string :=
  match v with
  | Null => "null"
  | Bool _ => "bool"
  | Number _ => "number"
  | String _ => "string"
  | Array _ => "array"
  | Object _ => "object"
  end.

(** The target is left as it is and the mismatch is reported. *)
Definition mismatch {A : Type} (v : value) (target : string) (cur : A) : Dec A :=
  (cur, Some (errors.UnmarshalTypeError (kind v) target)).

Definition store_string (v : value) (cur : string) : Dec string :=
  match v with
  | String s => mret s
  | Null => mret cur
  | _ => mismatch v "string" cur
  end.

Definition store_bool (v : value) (cur : bool) : Dec bool :=
  match v with
  | Bool b => mret b
  | Null => mret cur
  | _ => mismatch v "bool" cur
  end.

Fixpoint digits_value (acc : Z) (s : bytes) : option Z :=
  match s with
  | [] => Some acc
  | d :: r =>
      if is_digit d then digits_value (acc * 10 + Z.of_N (to_N d - 48)) r
      else None
  end.

(** [strconv.ParseInt(literal, 10, 64)]: digits only, within 64 bits. *)
Definition int_of_literal (literal : string) : option Z :=
  let parsed :=
    match list_byte_of_string literal with
    | [] => None
    | c :: r =>
        if c =? "-" then
          match r with
          | [] => None
          | _ :: _ => option_map Z.opp (digits_value 0 r)
          end
        else digits_value 0 (c :: r)
    end in
  match parsed with
  | Some z =>
      if ((- 2 ^ 63 <=? z) && (z <? 2 ^ 63))%Z then Some z else None
  | None => None
  end.

Definition store_int (v : value) (cur : Z) : Dec Z :=
  match v with
  | Number lit =>
      match int_of_literal lit with
      | Some z => mret z
      | None => mismatch v "int" cur
      end
  | Null => mret cur
  | _ => mismatch v "int" cur
  end.

(** A [float64] is kept as the literal it was read from. *)
Definition float64 : Type := string.

Definition store_float64 (v : value) (cur : float64) : Dec float64 :=
  match v with
  | Number lit => mret lit
  | Null => mret cur
  | _ => mismatch v "float64" cur
  end.

(** The elements of an array, each stored into a zero value, in order. *)
Fixpoint store_elements {A : Type} (store : value → A → Dec A) (zero : A)
    (vs : list value) : Dec (list A) :=
  match vs with
  | [] => mret []
  | v :: vs' =>
      x ← store v zero;
      xs ← store_elements store zero vs';
      mret (x :: xs)
  end.

Definition store_slice {A : Type} (store : value → A → Dec A) (zero : A)
    (target : string) (v : value) (cur : list A) : Dec (list A) :=
  match v with
  | Array vs => store_elements store zero vs
  | Null => mret []
  | _ => mismatch v target cur
  end.

Definition to_lower (s : string) : string :=
  string_of_list_byte
    (map (λ b, if ((65 <=? to_N b) && (to_N b <=? 90))%N
               then byte_of_N (to_N b + 32) else b)
         (list_byte_of_string s)).

Definition key_matches (name key : string) : bool :=
  String.eqb (to_lower key) (to_lower name).

(** The members of an object that are named [name], stored one after the
    other into the field whose current contents are [cur].  [store] is given
    the raw bytes of the member's value and its parsed form. *)
Fixpoint field {A : Type} (ms : list (string * (bytes * value))) (name : string)
    (store : bytes → value → A → Dec A) (cur : A) : Dec A :=
  match ms with
  | [] => mret cur
  | (k, (raw, v)) :: ms' =>
      if key_matches name k then
        x ← store raw v cur;
        field ms' name store x
      else field ms' name store cur
  end.

(** A field whose type has no [UnmarshalJSON] method of its own. *)
Definition plain {A : Type} (store : value → A → Dec A)
  : bytes → value → A → Dec A := λ _ v cur, store v cur.

(** [Unmarshal(data, &target)]: a syntax error leaves the target as it is. *)
Definition Unmarshal {A : Type} (store : value → A → Dec A) (data : bytes)
    (target : A) : Dec A :=
  match parse data with
  | Some v => store v target
  | None => (target, Some errors.SyntaxError)
  end.

End json.

Abbreviation Dec := json.Dec.

(** ** The rest of the response model *)

Record Generalization := {
  Generalization_Topic : string;
  Generalization_Description : string;
  Generalization_URL : string
}.

Record Spellcheck := {
  Spellcheck_Word : string;
  Spellcheck_Suggestion : string;
  Spellcheck_Text : string
}.

Record Delimiters := { Delimiters_Text : string }.

Record Translation := {
  Translation_Phrase : string;
  Translation_Translation : string;
  Translation_Language : string;
  Translation_Text : string
}.

Record Alternative := { Alternative_InnerText : string }.

Record ReInterpretation := {
  ReInterpretation_Alternatives : list Alternative;
  ReInterpretation_Text : string;
  ReInterpretation_New : string
}.

Record Warnings := {
  Warnings_Count : Z;
  Warnings_Spellchecks : list Spellcheck;
  Warnings_Delimiters : list Delimiters;
  Warnings_Translations : list Translation;
  Warnings_ReInterpretations : list ReInterpretation
}.

Record Img := {
  Img_Src : string;
  Img_Alt : string;
  Img_Title : string;
  Img_Width : Z;
  Img_Height : Z;
  Img_ContentType : string
}.

Record SubPod := {
  SubPod_Image : Img;
  SubPod_Plaintext : string;
  SubPod_Title : string
}.

Record State := {
  State_Name : string;
  State_Input : string
}.

Record Pod := {
  Pod_SubPods : list SubPod;
  Pod_States : list State;
  Pod_Title : string;
  Pod_Scanner : string;
  Pod_Error : bool;
  Pod_Position : Z;
  Pod_ID : string;
  Pod_NumSubPods : Z
}.

Record QueryResult := {
  QueryResult_Query : string;
  QueryResult_Pods : list Pod;
  QueryResult_Warnings : Warnings;
  QueryResult_Assumptions : Assumptions;
  QueryResult_Generalizations : list Generalization;
  QueryResult_Success : bool;
  QueryResult_Error : bool;
  QueryResult_NumPods : Z;
  QueryResult_DataTypes : string;
  QueryResult_TimedOut : string;
  QueryResult_Timing : json.float64;
  QueryResult_ParseTiming : json.float64;
  QueryResult_ParseTimedOut : bool;
  QueryResult_ReCalculate : string;
  QueryResult_ID : string;
  QueryResult_Host : string;
  QueryResult_Server : string;
  QueryResult_Related : string;
  QueryResult_Version : string
}.

Record Query := { Query_Result : QueryResult }.

Record Client := { Client_AppID : string }.

Definition zero_Generalization : Generalization :=
  {| Generalization_Topic := ""; Generalization_Description := "";
     Generalization_URL := "" |}.

Definition zero_Spellcheck : Spellcheck :=
  {| Spellcheck_Word := ""; Spellcheck_Suggestion := ""; Spellcheck_Text := "" |}.

Definition zero_Delimiters : Delimiters := {| Delimiters_Text := "" |}.

Definition zero_Translation : Translation :=
  {| Translation_Phrase := ""; Translation_Translation := "";
     Translation_Language := ""; Translation_Text := "" |}.

Definition zero_Alternative : Alternative := {| Alternative_InnerText := "" |}.

Definition zero_ReInterpretation : ReInterpretation :=
  {| ReInterpretation_Alternatives := []; ReInterpretation_Text := "";
     ReInterpretation_New := "" |}.

Definition zero_Warnings : Warnings :=
  {| Warnings_Count := 0; Warnings_Spellchecks := []; Warnings_Delimiters := [];
     Warnings_Translations := []; Warnings_ReInterpretations := [] |}.

Definition zero_Img : Img :=
  {| Img_Src := ""; Img_Alt := ""; Img_Title := ""; Img_Width := 0;
     Img_Height := 0; Img_ContentType := "" |}.

Definition zero_SubPod : SubPod :=
  {| SubPod_Image := zero_Img; SubPod_Plaintext := ""; SubPod_Title := "" |}.

Definition zero_State : State := {| State_Name := ""; State_Input := "" |}.

Definition zero_Pod : Pod :=
  {| Pod_SubPods := []; Pod_States := []; Pod_Title := ""; Pod_Scanner := "";
     Pod_Error := false; Pod_Position := 0; Pod_ID := ""; Pod_NumSubPods := 0 |}.

Definition zero_QueryResult : QueryResult :=
  {| QueryResult_Query := ""; QueryResult_Pods := [];
     QueryResult_Warnings := zero_Warnings;
     QueryResult_Assumptions := zero_Assumptions;
     QueryResult_Generalizations := []; QueryResult_Success := false;
     QueryResult_Error := false; QueryResult_NumPods := 0;
     QueryResult_DataTypes := ""; QueryResult_TimedOut := "";
     QueryResult_Timing := "0"; QueryResult_ParseTiming := "0";
     QueryResult_ParseTimedOut := false; QueryResult_ReCalculate := "";
     QueryResult_ID := ""; QueryResult_Host := ""; QueryResult_Server := "";
     QueryResult_Related := ""; QueryResult_Version := "" |}.

Definition zero_Query : Query := {| Query_Result := zero_QueryResult |}.

(** ** The decoders of the records

    What the JSON libraries derive from the struct tags: an object is stored
    member by member into the fields named by the tags, other members are
    skipped, [null] leaves the record as it is. *)

Definition decode_Value (v : json.value) (cur : Value) : Dec Value :=
  match v with
  | json.Object ms =>
      name ← json.field ms "name" (json.plain json.store_string) (Value_Name cur);
      desc ← json.field ms "desc" (json.plain json.store_string) (Value_Description cur);
      input ← json.field ms "input" (json.plain json.store_string) (Value_Input cur);
      mret {| Value_Name := name; Value_Description := desc; Value_Input := input |}
  | json.Null => mret cur
  | _ => json.mismatch v "wolfram.Value" cur
  end.

Definition decode_Assumption (v : json.value) (cur : Assumption) : Dec Assumption :=
  match v with
  | json.Object ms =>
      values ← json.field ms "values"
        (json.plain (json.store_slice decode_Value zero_Value "[]wolfram.Value"))
        (Assumption_Values cur);
      type ← json.field ms "type" (json.plain json.store_string) (Assumption_Type cur);
      word ← json.field ms "word" (json.plain json.store_string) (Assumption_Word cur);
      template ← json.field ms "template" (json.plain json.store_string)
        (Assumption_Template cur);
      count ← json.field ms "count" (json.plain json.store_int) (Assumption_Count cur);
      mret {| Assumption_Values := values; Assumption_Type := type;
              Assumption_Word := word; Assumption_Template := template;
              Assumption_Count := count |}
  | json.Null => mret cur
  | _ => json.mismatch v "wolfram.Assumption" cur
  end.

(** ** Assumptions.UnmarshalJSON *)

(** [func (a *Assumptions) UnmarshalJSON(data []byte) error]: the receiver
    before the call and the raw bytes give the receiver after the call and
    the error returned. *)
Definition Assumptions_UnmarshalJSON (a : Assumptions) (data : bytes)
  : Assumptions * option error :=
  match data with
  | [] => (a, Some (errors.New "no bytes in assumptions to unmarshall"))
  | c :: _ =>
      if (c =? "{")%byte then
        (* a.Count = 1; a.Assumption = make([]Assumption, 1) *)
        let a1 := {| Assumptions_Assumption := [zero_Assumption];
                     Assumptions_Count := 1 |} in
        (* return json.Unmarshal(data, &a.Assumption[0]) *)
        let '(x, err) := json.Unmarshal decode_Assumption data zero_Assumption in
        ({| Assumptions_Assumption := [x];
            Assumptions_Count := Assumptions_Count a1 |}, err)
      else if (c =? "[")%byte then
        let '(xs, err) :=
          json.Unmarshal
            (json.store_slice decode_Assumption zero_Assumption "[]wolfram.Assumption")
            data (Assumptions_Assumption a) in
        match err with
        | Some e =>
            ({| Assumptions_Assumption := xs;
                Assumptions_Count := Assumptions_Count a |},
             Some (errors.WithMessage e "error interpreting assumption"))
        | None =>
            (* a.Count = len(a.Assumption) *)
            ({| Assumptions_Assumption := xs;
                Assumptions_Count := Z.of_nat (length xs) |}, None)
        end
      else
        (a, Some (errors.Errorf
                    "assumptions json does not indicate an object or array (%s)"
                    [string_of_byte c]))
  end.

(** ** The decoders of the whole document *)

Definition decode_Generalization (v : json.value) (cur : Generalization)
  : Dec Generalization :=
  match v with
  | json.Object ms =>
      topic ← json.field ms "topic" (json.plain json.store_string)
        (Generalization_Topic cur);
      desc ← json.field ms "desc" (json.plain json.store_string)
        (Generalization_Description cur);
      url ← json.field ms "url" (json.plain json.store_string)
        (Generalization_URL cur);
      mret {| Generalization_Topic := topic; Generalization_Description := desc;
              Generalization_URL := url |}
  | json.Null => mret cur
  | _ => json.mismatch v "wolfram.Generalization" cur
  end.

Definition decode_Spellcheck (v : json.value) (cur : Spellcheck) : Dec Spellcheck :=
  match v with
  | json.Object ms =>
      word ← json.field ms "word" (json.plain json.store_string) (Spellcheck_Word cur);
      suggestion ← json.field ms "suggestion" (json.plain json.store_string)
        (Spellcheck_Suggestion cur);
      text ← json.field ms "text" (json.plain json.store_string) (Spellcheck_Text cur);
      mret {| Spellcheck_Word := word; Spellcheck_Suggestion := suggestion;
              Spellcheck_Text := text |}
  | json.Null => mret cur
  | _ => json.mismatch v "wolfram.Spellcheck" cur
  end.

Definition decode_Delimiters (v : json.value) (cur : Delimiters) : Dec Delimiters :=
  match v with
  | json.Object ms =>
      text ← json.field ms "text" (json.plain json.store_string) (Delimiters_Text cur);
      mret {| Delimiters_Text := text |}
  | json.Null => mret cur
  | _ => json.mismatch v "wolfram.Delimiters" cur
  end.

Definition decode_Translation (v : json.value) (cur : Translation) : Dec Translation :=
  match v with
  | json.Object ms =>
      phrase ← json.field ms "phrase" (json.plain json.store_string)
        (Translation_Phrase cur);
      trans ← json.field ms "trans" (json.plain json.store_string)
        (Translation_Translation cur);
      lang ← json.field ms "lang" (json.plain json.store_string)
        (Translation_Language cur);
      text ← json.field ms "text" (json.plain json.store_string) (Translation_Text cur);
      mret {| Translation_Phrase := phrase; Translation_Translation := trans;
              Translation_Language := lang; Translation_Text := text |}
  | json.Null => mret cur
  | _ => json.mismatch v "wolfram.Translation" cur
  end.

(** The tag [json:",innerxml"] names no key: the field goes by its Go name. *)
Definition decode_Alternative (v : json.value) (cur : Alternative) : Dec Alternative :=
  match v with
  | json.Object ms =>
      inner ← json.field ms "InnerText" (json.plain json.store_string)
        (Alternative_InnerText cur);
      mret {| Alternative_InnerText := inner |}
  | json.Null => mret cur
  | _ => json.mismatch v "wolfram.Alternative" cur
  end.

Definition decode_ReInterpretation (v : json.value) (cur : ReInterpretation)
  : Dec ReInterpretation :=
  match v with
  | json.Object ms =>
      alternatives ← json.field ms "alternative"
        (json.plain (json.store_slice decode_Alternative zero_Alternative
                       "[]wolfram.Alternative"))
        (ReInterpretation_Alternatives cur);
      text ← json.field ms "text" (json.plain json.store_string)
        (ReInterpretation_Text cur);
      new ← json.field ms "new" (json.plain json.store_string)
        (ReInterpretation_New cur);
      mret {| ReInterpretation_Alternatives := alternatives;
              ReInterpretation_Text := text; ReInterpretation_New := new |}
  | json.Null => mret cur
  | _ => json.mismatch v "wolfram.ReInterpretation" cur
  end.

Definition decode_Warnings (v : json.value) (cur : Warnings) : Dec Warnings :=
  match v with
  | json.Object ms =>
      count ← json.field ms "count" (json.plain json.store_int) (Warnings_Count cur);
      spellchecks ← json.field ms "spellcheck"
        (json.plain (json.store_slice decode_Spellcheck zero_Spellcheck
                       "[]wolfram.Spellcheck"))
        (Warnings_Spellchecks cur);
      delimiters ← json.field ms "delimiters"
        (json.plain (json.store_slice decode_Delimiters zero_Delimiters
                       "[]wolfram.Delimiters"))
        (Warnings_Delimiters cur);
      translations ← json.field ms "translation"
        (json.plain (json.store_slice decode_Translation zero_Translation
                       "[]wolfram.Translation"))
        (Warnings_Translations cur);
      reinterpretations ← json.field ms "reinterpret"
        (json.plain (json.store_slice decode_ReInterpretation zero_ReInterpretation
                       "[]wolfram.ReInterpretation"))
        (Warnings_ReInterpretations cur);
      mret {| Warnings_Count := count; Warnings_Spellchecks := spellchecks;
              Warnings_Delimiters := delimiters;
              Warnings_Translations := translations;
              Warnings_ReInterpretations := reinterpretations |}
  | json.Null => mret cur
  | _ => json.mismatch v "wolfram.Warnings" cur
  end.

Definition decode_Img (v : json.value) (cur : Img) : Dec Img :=
  match v with
  | json.Object ms =>
      src ← json.field ms "src" (json.plain json.store_string) (Img_Src cur);
      alt ← json.field ms "alt" (json.plain json.store_string) (Img_Alt cur);
      title ← json.field ms "title" (json.plain json.store_string) (Img_Title cur);
      width ← json.field ms "width" (json.plain json.store_int) (Img_Width cur);
      height ← json.field ms "height" (json.plain json.store_int) (Img_Height cur);
      contenttype ← json.field ms "contenttype" (json.plain json.store_string)
        (Img_ContentType cur);
      mret {| Img_Src := src; Img_Alt := alt; Img_Title := title;
              Img_Width := width; Img_Height := height;
              Img_ContentType := contenttype |}
  | json.Null => mret cur
  | _ => json.mismatch v "wolfram.Img" cur
  end.

Definition decode_SubPod (v : json.value) (cur : SubPod) : Dec SubPod :=
  match v with
  | json.Object ms =>
      img ← json.field ms "img" (json.plain decode_Img) (SubPod_Image cur);
      plaintext ← json.field ms "plaintext" (json.plain json.store_string)
        (SubPod_Plaintext cur);
      title ← json.field ms "title" (json.plain json.store_string) (SubPod_Title cur);
      mret {| SubPod_Image := img; SubPod_Plaintext := plaintext;
              SubPod_Title := title |}
  | json.Null => mret cur
  | _ => json.mismatch v "wolfram.SubPod" cur
  end.

Definition decode_State (v : json.value) (cur : State) : Dec State :=
  match v with
  | json.Object ms =>
      name ← json.field ms "name" (json.plain json.store_string) (State_Name cur);
      input ← json.field ms "input" (json.plain json.store_string) (State_Input cur);
      mret {| State_Name := name; State_Input := input |}
  | json.Null => mret cur
  | _ => json.mismatch v "wolfram.State" cur
  end.

Definition decode_Pod (v : json.value) (cur : Pod) : Dec Pod :=
  match v with
  | json.Object ms =>
      subpods ← json.field ms "subpods"
        (json.plain (json.store_slice decode_SubPod zero_SubPod "[]wolfram.SubPod"))
        (Pod_SubPods cur);
      states ← json.field ms "states"
        (json.plain (json.store_slice decode_State zero_State "[]wolfram.State"))
        (Pod_States cur);
      title ← json.field ms "title" (json.plain json.store_string) (Pod_Title cur);
      scanner ← json.field ms "scanner" (json.plain json.store_string)
        (Pod_Scanner cur);
      error ← json.field ms "error" (json.plain json.store_bool) (Pod_Error cur);
      position ← json.field ms "position" (json.plain json.store_int)
        (Pod_Position cur);
      id ← json.field ms "id" (json.plain json.store_string) (Pod_ID cur);
      numsubpods ← json.field ms "numsubpods" (json.plain json.store_int)
        (Pod_NumSubPods cur);
      mret {| Pod_SubPods := subpods; Pod_States := states; Pod_Title := title;
              Pod_Scanner := scanner; Pod_Error := error;
              Pod_Position := position; Pod_ID := id;
              Pod_NumSubPods := numsubpods |}
  | json.Null => mret cur
  | _ => json.mismatch v "wolfram.Pod" cur
  end.

(** A field of type [Assumptions]: the type has an [UnmarshalJSON] method,
    which is given the raw bytes of the member's value, from its first
    significant byte on (json-iterator skips the white space before it). *)
Definition decode_Assumptions (raw : bytes) (v : json.value) (cur : Assumptions)
  : Dec Assumptions :=
  let '(a, err) := Assumptions_UnmarshalJSON cur raw in
  (a, option_map (λ e, errors.UnmarshalerError (errors.Error e)) err).

(** The field [Query] has no tag: it is stored from a member named [Query],
    in any letter case, like every other exported field. *)
Definition decode_QueryResult (v : json.value) (cur : QueryResult) : Dec QueryResult :=
  match v with
  | json.Object ms =>
      query ← json.field ms "Query" (json.plain json.store_string)
        (QueryResult_Query cur);
      pods ← json.field ms "pods"
        (json.plain (json.store_slice decode_Pod zero_Pod "[]wolfram.Pod"))
        (QueryResult_Pods cur);
      warnings ← json.field ms "warnings" (json.plain decode_Warnings)
        (QueryResult_Warnings cur);
      assumptions ← json.field ms "assumptions" decode_Assumptions
        (QueryResult_Assumptions cur);
      generalizations ← json.field ms "generalization"
        (json.plain (json.store_slice decode_Generalization zero_Generalization
                       "[]wolfram.Generalization"))
        (QueryResult_Generalizations cur);
      success ← json.field ms "success" (json.plain json.store_bool)
        (QueryResult_Success cur);
      error ← json.field ms "error" (json.plain json.store_bool)
        (QueryResult_Error cur);
      numpods ← json.field ms "numpods" (json.plain json.store_int)
        (QueryResult_NumPods cur);
      datatypes ← json.field ms "datatypes" (json.plain json.store_string)
        (QueryResult_DataTypes cur);
      timedout ← json.field ms "timedout" (json.plain json.store_string)
        (QueryResult_TimedOut cur);
      timing ← json.field ms "timing" (json.plain json.store_float64)
        (QueryResult_Timing cur);
      parsetiming ← json.field ms "parsetiming" (json.plain json.store_float64)
        (QueryResult_ParseTiming cur);
      parsetimedout ← json.field ms "parsetimedout" (json.plain json.store_bool)
        (QueryResult_ParseTimedOut cur);
      recalculate ← json.field ms "recalculate" (json.plain json.store_string)
        (QueryResult_ReCalculate cur);
      id ← json.field ms "id" (json.plain json.store_string) (QueryResult_ID cur);
      host ← json.field ms "host" (json.plain json.store_string)
        (QueryResult_Host cur);
      server ← json.field ms "server" (json.plain json.store_string)
        (QueryResult_Server cur);
      related ← json.field ms "related" (json.plain json.store_string)
        (QueryResult_Related cur);
      version ← json.field ms "version" (json.plain json.store_string)
        (QueryResult_Version cur);
      mret {| QueryResult_Query := query; QueryResult_Pods := pods;
              QueryResult_Warnings := warnings;
              QueryResult_Assumptions := assumptions;
              QueryResult_Generalizations := generalizations;
              QueryResult_Success := success; QueryResult_Error := error;
              QueryResult_NumPods := numpods; QueryResult_DataTypes := datatypes;
              QueryResult_TimedOut := timedout; QueryResult_Timing := timing;
              QueryResult_ParseTiming := parsetiming;
              QueryResult_ParseTimedOut := parsetimedout;
              QueryResult_ReCalculate := recalculate; QueryResult_ID := id;
              QueryResult_Host := host; QueryResult_Server := server;
              QueryResult_Related := related; QueryResult_Version := version |}
  | json.Null => mret cur
  | _ => json.mismatch v "wolfram.QueryResult" cur
  end.

Definition decode_Query (v : json.value) (cur : Query) : Dec Query :=
  match v with
  | json.Object ms =>
      result ← json.field ms "queryresult" (json.plain decode_QueryResult)
        (Query_Result cur);
      mret {| Query_Result := result |}
  | json.Null => mret cur
  | _ => json.mismatch v "wolfram.Query" cur
  end.

(** The target [&data] is a pointer to the pointer [data]: [null] sets
    [data] to nil, anything else is stored into the record it points to. *)
Definition decode_Query_ptr (v : json.value) (cur : option Query) : Dec (option Query) :=
  match v with
  | json.Null => mret None
  | _ =>
      q ← decode_Query v (default zero_Query cur);
      mret (Some q)
  end.

(** ** The template engine

    github.com/valyala/fasttemplate, for the tag pair the package uses: the
    start tag [${] and the end tag [}].  [Reset] cuts the template at every
    start tag and at the first end tag after it; [NewTemplate] reports a start
    tag that is never closed, and [New] panics on that report (the library's
    documentation: New panics if the given template cannot be parsed).  The
    substitution map holds strings, the only values the package puts in. *)

Module fasttemplate.

(** The pieces of a template: the text before the first start tag, and for
    every tag its name and the text after its end tag.  [cut_text] reads text,
    [cut_tag] reads the name of a tag. *)
Fixpoint cut_text (s : string) : option (string * list (string * string)) :=
  match s with
  | EmptyString => Some ("", [])
  | String c r =>
      let text_goes_on :=
        match cut_text r with
        | Some (text, more) => Some (String c text, more)
        | None => None
        end in
      match r with
      | String c' r' =>
          if Ascii.eqb c "$" && Ascii.eqb c' "{" then
            match cut_tag r' with
            | Some (tag, (text, more)) => Some ("", (tag, text) :: more)
            | None => None
            end
          else text_goes_on
      | EmptyString => text_goes_on
      end
  end
with cut_tag (s : string)
  : option (string * (string * list (string * string))) :=
  match s with
  | EmptyString => None
  | String c r =>
      if Ascii.eqb c "}" then
        match cut_text r with
        | Some p => Some ("", p)
        | None => None
        end
      else
        match cut_tag r with
        | Some (tag, p) => Some (String c tag, p)
        | None => None
        end
  end.

Record Template := {
  template : string;
  texts : list string;
  tags : list string
}.

(** [NewTemplate(template, "${", "}")].  A template without a start tag
    keeps no texts, as in [Reset].  The text of the error is cut short: the
    library's goes on to name the end tag, the template and what follows the
    start tag. *)
Definition NewTemplate (template : string) : Template + error :=
  match cut_text template with
  | Some (_, []) => inl {| template := template; texts := []; tags := [] |}
  | Some (text, more) =>
      inl {| template := template; texts := text :: map snd more;
             tags := map fst more |}
  | None => inr (errors.New "Cannot find end tag")
  end.

(** [New(template, "${", "}")]. *)
Definition New (template : string) : outcome Template :=
  match NewTemplate template with
  | inl t => Returned t
  | inr err => Panicked (errors.Error err)
  end.

(** The loop of [ExecuteFunc]: a text, the value of the tag after it, and
    so on to the last text. *)
Fixpoint execute (f : string → string) (texts tags : list string) : string :=
  match texts with
  | [] => ""
  | text :: texts' =>
      match tags with
      | [] => text
      | tag :: tags' => text ++ f tag ++ execute f texts' tags'
      end
  end.

Definition ExecuteFuncString (t : Template) (f : string → string) : string :=
  match texts t with
  | [] => template t
  | _ :: _ => execute f (texts t) (tags t)
  end.

(** [stdTagFunc]: the value of the tag in the map, nothing for a tag the map
    does not hold. *)
Definition stdTagFunc (m : gmap string string) (tag : string) : string :=
  match m !! tag with
  | Some v => v
  | None => ""
  end.

Definition ExecuteString (t : Template) (m : gmap string string) : string :=
  ExecuteFuncString t (stdTagFunc m).

End fasttemplate.

(** The Template Renderer of the package: [fasttemplate.New] followed by
    [ExecuteString], as [ForActionDisplay] calls them. *)
Definition render (template : string) (m : gmap string string) : outcome string :=
  match fasttemplate.New template with
  | Returned t => Returned (fasttemplate.ExecuteString t m)
  | Panicked reason => Panicked reason
  end.

(** ** Assumption.ForActionDisplay *)

(** The map literal of [ForActionDisplay]: the keys [word], [desc1] and
    [desc2]. *)
Definition label_map (word desc1 desc2 : string) : gmap string string :=
  <["word" := word]> (<["desc1" := desc1]> (<["desc2" := desc2]> ∅)).

(** [func (assumption *Assumption) ForActionDisplay()], which returns a
    pointer to a slice of [ActionAssumption] and an error: [None] stands for
    the nil pointer and for the nil error. *)
Definition Assumption_ForActionDisplay (assumption : Assumption)
  : outcome (option (list ActionAssumption) * option error) :=
  if (length (Assumption_Values assumption) <? 2)%nat then
    Returned (None, Some (errors.New "nothing to assume"))
  else
    let assumedValue :=
      Value_Description (nth 0 (Assumption_Values assumption) zero_Value) in
    match fasttemplate.New (Assumption_Template assumption) with
    | Panicked reason => Panicked reason
    | Returned template =>
        let actions :=
          fold_left
            (λ actions value,
               let label :=
                 fasttemplate.ExecuteString template
                   (label_map (Assumption_Word assumption) assumedValue
                      (Value_Description value)) in
               let displayAssumption :=
                 {| ActionAssumption_Label := label;
                    ActionAssumption_Action := Value_Input value;
                    ActionAssumption_ButtonLabel := Value_Name value;
                    ActionAssumption_Description := Value_Description value |} in
               (actions ++ [displayAssumption])%list)
            (drop 1 (Assumption_Values assumption)) [] in
        Returned (Some actions, None)
    end.

(** ** net/url *)

Module url.

#[local] Open Scope byte_scope.

(** [shouldEscape(c, encodeQueryComponent)]: letters, digits and [-_.~] are
    kept. *)
Definition shouldEscape (c : byte) : bool :=
  let n := to_N c in
  negb (((97 <=? n) && (n <=? 122))%N || ((65 <=? n) && (n <=? 90))%N
        || ((48 <=? n) && (n <=? 57))%N
        || (c =? "-") || (c =? "_") || (c =? ".") || (c =? "~")).

Definition upperhex (n : N) : byte :=
  nth (N.to_nat n) (list_byte_of_string "0123456789ABCDEF") "0".

Definition escape_byte (c : byte) : bytes :=
  if c =? " " then ["+"]
  else if shouldEscape c then
    ["%"; upperhex (to_N c / 16); upperhex (to_N c mod 16)]
  else [c].

Definition QueryEscape (s : string) : string :=
  string_of_list_byte (flat_map escape_byte (list_byte_of_string s)).

End url.

(** ** Client.GetQueryResult *)

Definition set_QueryResult_Query (r : QueryResult) (query : string) : QueryResult :=
  {| QueryResult_Query := query; QueryResult_Pods := QueryResult_Pods r;
     QueryResult_Warnings := QueryResult_Warnings r;
     QueryResult_Assumptions := QueryResult_Assumptions r;
     QueryResult_Generalizations := QueryResult_Generalizations r;
     QueryResult_Success := QueryResult_Success r;
     QueryResult_Error := QueryResult_Error r;
     QueryResult_NumPods := QueryResult_NumPods r;
     QueryResult_DataTypes := QueryResult_DataTypes r;
     QueryResult_TimedOut := QueryResult_TimedOut r;
     QueryResult_Timing := QueryResult_Timing r;
     QueryResult_ParseTiming := QueryResult_ParseTiming r;
     QueryResult_ParseTimedOut := QueryResult_ParseTimedOut r;
     QueryResult_ReCalculate := QueryResult_ReCalculate r;
     QueryResult_ID := QueryResult_ID r; QueryResult_Host := QueryResult_Host r;
     QueryResult_Server := QueryResult_Server r;
     QueryResult_Related := QueryResult_Related r;
     QueryResult_Version := QueryResult_Version r |}.

(** The part of the function after the response body has been read:
    [data := &Query{}] up to the [return]. *)
Definition decode_response (query : string) (body : bytes)
  : outcome (option QueryResult * option error) :=
  (* data := &Query{}; data.Result.Query = query *)
  let data :=
    Some {| Query_Result := set_QueryResult_Query zero_QueryResult query |} in
  (* jsonLib.Unmarshal(body, &data) *)
  let '(data, err) := json.Unmarshal decode_Query_ptr body data in
  match err with
  | Some e =>
      Returned (None, Some (errors.WithMessage e
                              "unable to interpret wolfram alpha json result"))
  | None =>
      (* return &data.Result, err *)
      match data with
      | Some d => Returned (Some (Query_Result d), None)
      | None => Panicked "invalid memory address or nil pointer dereference"
      end
  end.

Section Transport.

(** The network: what [http.Get] answers for a URL, either an error or a
    response whose body [ioutil.ReadAll] reads to the bytes and error given.
    [url.Values] and its [Encode] are taken as they are. *)
Variable http_Get : string → (bytes * option error) + error.
Variable Values : Type.
Variable Values_Encode : Values → string.

(** The URL of the request, for the query already escaped: the [Sprintf]
    and the [if params != nil] of [GetQueryResult]; [params] is [None] for a
    nil map. *)
Definition request_url (c : Client) (query : string) (params : option Values)
  : string :=
  let url :=
    fmt.Sprintf "https://api.wolframalpha.com/v2/query?input=%s&appid=%s&output=JSON"
      [query; Client_AppID c] in
  match params with
  | Some p => url ++ "&" ++ Values_Encode p
  | None => url
  end.

(** [func (c *Client) GetQueryResult(query string, params url.Values)],
    which returns a pointer to a [QueryResult] and an error.  The dump of the
    body made with [PrettyJsonFromRaw] is only printed and is left out. *)
Definition Client_GetQueryResult (c : Client) (query : string)
    (params : option Values) : outcome (option QueryResult * option error) :=
  let query := url.QueryEscape query in
  let url := request_url c query params in
  match http_Get url with
  | inr err =>
      Returned (None, Some (errors.WithMessage err
                              "error in wolfram alpha http request"))
  | inl (body, Some err) =>
      Returned (None, Some (errors.WithMessage err
                              "error in obtaining full wolfram alpha http result"))
  | inl (body, None) => decode_response query body
  end.

End Transport.

(** ** The text endpoints *)

Module strconv.

(** [strconv.Itoa]: the decimal text of an integer, with a minus sign for a
    negative one. *)
Definition Itoa (i : Z) : string := NilZero.string_of_int (Z.to_int i).

End strconv.

(** [type Unit int], with [Imperial] and [Metric] numbered by [iota]. *)
Definition Unit : Type := Z.
Definition Imperial : Unit := 0%Z.
Definition Metric : Unit := 1%Z.

(** The query as [GetShortAnswerQuery] and [GetSpokenAnswerQuery] prepare
    it before the [Sprintf]: escaped, then the units, then the timeout.  A
    unit that is neither constant adds nothing, like the [switch] without a
    default. *)
Definition answer_query (query : string) (units : Unit) (timeout : Z) : string :=
  let query := url.QueryEscape query in
  let query :=
    if (units =? Imperial)%Z then query ++ "&units=imperial"
    else if (units =? Metric)%Z then query ++ "&units=metric"
    else query in
  if negb (timeout =? 0)%Z then query ++ "&timeout=" ++ strconv.Itoa timeout
  else query.

(** The URL [GetShortAnswerQuery] requests. *)
Definition short_answer_url (c : Client) (query : string) (units : Unit)
    (timeout : Z) : string :=
  fmt.Sprintf "https://api.wolframalpha.com/v1/result?appid=%s&i=%s&output=json"
    [Client_AppID c; answer_query query units timeout].

(** The URL [GetSpokenAnswerQuery] requests. *)
Definition spoken_answer_url (c : Client) (query : string) (units : Unit)
    (timeout : Z) : string :=
  fmt.Sprintf "https://api.wolframalpha.com/v1/spoken?appid=%s&i=%s&output=json"
    [Client_AppID c; answer_query query units timeout].

Section Answers.

Variable http_Get : string → (bytes * option error) + error.
Variable Values : Type.
Variable Values_Encode : Values → string.

(** What follows the request in both functions: an error of [http.Get] or
    of [ioutil.ReadAll] is returned as it is, with the empty string; the
    bytes read are returned as a string otherwise. *)
Definition read_answer (url : string) : string * option error :=
  match http_Get url with
  | inr err => ("", Some err)
  | inl (b, Some err) => ("", Some err)
  | inl (b, None) => (string_of_list_byte b, None)
  end.

(** [func (c *Client) GetShortAnswerQuery(query string, units Unit, timeout
    int) (string, error)] *)
Definition Client_GetShortAnswerQuery (c : Client) (query : string)
    (units : Unit) (timeout : Z) : string * option error :=
  read_answer (short_answer_url c query units timeout).

(** [func (c *Client) GetSpokenAnswerQuery(query string, units Unit, timeout
    int) (string, error)] *)
Definition Client_GetSpokenAnswerQuery (c : Client) (query : string)
    (units : Unit) (timeout : Z) : string * option error :=
  read_answer (spoken_answer_url c query units timeout).

(** The URL [GetSimpleQuery] requests. *)
Definition simple_url (c : Client) (query : string) (params : option Values)
  : string :=
  let query := url.QueryEscape query in
  let query :=
    fmt.Sprintf "http://api.wolframalpha.com/v1/simple?appid=%s&input=%s&output=json"
      [Client_AppID c; query] in
  match params with
  | Some p => query ++ "&" ++ Values_Encode p
  | None => query
  end.

(** [func (c *Client) GetSimpleQuery(query string, params url.Values)
    (io.ReadCloser, string, error)]: the body is handed over unread, as what
    reading it will give. *)
Definition Client_GetSimpleQuery (c : Client) (query : string)
    (params : option Values)
  : option (bytes * option error) * string * option error :=
  let query := simple_url c query params in
  match http_Get query with
  | inr err => (None, "", Some err)
  | inl body => (Some body, query, None)
  end.

End Answers.

(** ** Sample inputs

    JSON texts are written with ['] where the text has a double quote. *)

Definition json_text (s : string) : bytes :=
  map (λ b, if (b =? "'")%byte then x22 else b) (list_byte_of_string s).

(** The example of the package's documentation, for the query 'dow
    chemical'. *)
Definition dow_chemical : bytes :=
  json_text
    "{ 'type': 'Clash', 'word': 'dow chemical',
       'template': 'Assuming \'${word}\' is ${desc1}. Use as ${desc2} instead',
       'count': 2,
       'values': [
         { 'name': 'Financial', 'desc': 'a financial entity',
           'input': '*C.dow+chemical-_*Financial-' },
         { 'name': 'Company', 'desc': 'a company',
           'input': '*C.dow+chemical-_*Company-' } ] }".

Definition dow_chemical_Assumption : Assumption :=
  {| Assumption_Values :=
       [ {| Value_Name := "Financial"; Value_Description := "a financial entity";
            Value_Input := "*C.dow+chemical-_*Financial-" |};
         {| Value_Name := "Company"; Value_Description := "a company";
            Value_Input := "*C.dow+chemical-_*Company-" |} ];
     Assumption_Type := "Clash";
     Assumption_Word := "dow chemical";
     Assumption_Template :=
       string_of_list_byte
         (json_text "Assuming '${word}' is ${desc1}. Use as ${desc2} instead");
     Assumption_Count := 2 |}.

(** The text of the error for a first byte that opens neither shape. *)
Definition unrecognized_shape (c : byte) : error :=
  errors.New
    ("assumptions json does not indicate an object or array ("
       ++ string_of_byte c ++ ")").

(** ** Words about templates *)

(** [s] holds the start tag [${] somewhere. *)
Fixpoint has_start (s : string) : bool :=
  match s with
  | EmptyString => false
  | String c r =>
      match r with
      | String c' _ => Ascii.eqb c "$" && Ascii.eqb c' "{" || has_start r
      | EmptyString => false
      end
  end.

(** [s] holds the end tag [}] somewhere. *)
Fixpoint has_end (s : string) : bool :=
  match s with
  | EmptyString => false
  | String c r => Ascii.eqb c "}" || has_end r
  end.

(** The pieces of a template put together again, every tag replaced by its
    value under [f]. *)
Definition expand (f : string → string) (p : string * list (string * string))
  : string :=
  p.1 ++ fold_right (λ '(tag, text) out, f tag ++ text ++ out) "" p.2.

(** ** Words about responses *)

(** The values of the members of an object that go by the name [name]. *)
Definition members_named (name : string)
    (ms : list (string * (bytes * json.value))) : list json.value :=
  map (λ m, m.2.2) (List.filter (λ m, json.key_matches name m.1) ms).

(** The values of the members named [name] in the [queryresult] objects of
    a response. *)
Definition response_members (name : string) (body : bytes) : list json.value :=
  match json.parse body with
  | Some (json.Object top) =>
      flat_map (λ v, match v with
                     | json.Object ms => members_named name ms
                     | _ => []
                     end)
               (members_named "queryresult" top)
  | _ => []
  end.

(** A server that answers every request with [body]. *)
Definition answers (body : bytes) : string → (bytes * option error) + error :=
  λ _, inl (body, None).

(** ** Words about requests *)

(** A byte that stands for itself in the query part of a URL and closes no
    parameter: a letter, a digit, one of [-_.~], or the [+] and [%] of an
    escape. *)
Definition url_safe (b : byte) : bool :=
  let n := to_N b in
  (((97 <=? n) && (n <=? 122)) || ((65 <=? n) && (n <=? 90))
   || ((48 <=? n) && (n <=? 57)))%N
  || (b =? "-")%byte || (b =? "_")%byte || (b =? ".")%byte || (b =? "~")%byte
  || (b =? "+")%byte || (b =? "%")%byte.

(** An array or an object. *)
Definition is_container (v : json.value) : bool :=
  match v with
  | json.Array _ | json.Object _ => true
  | _ => false
  end.

(** ** Words about arrays *)

(** Where a reader of a JSON text stands: outside a string literal, inside
    one, or just after a backslash inside one. *)
Inductive reading : Type := Outside | Inside | Escaped.

(** The commas that separate the elements of an array, counted on the bytes
    that follow its opening bracket, up to its closing bracket: a comma counts
    when it stands outside every string literal and outside every array or
    object nested in the array.  [depth] is the number of nested arrays and
    objects that are open. *)
Fixpoint separators (mode : reading) (depth : nat) (s : bytes) : option nat :=
  match s with
  | [] => None
  | c :: r =>
      match mode with
      | Inside =>
          if (c =? x22)%byte then separators Outside depth r
          else if (c =? x5c)%byte then separators Escaped depth r
          else separators Inside depth r
      | Escaped => separators Inside depth r
      | Outside =>
          if (c =? x22)%byte then separators Inside depth r
          else if ((c =? "[") || (c =? "{"))%byte then
            separators Outside (S depth) r
          else if ((c =? "]") || (c =? "}"))%byte then
            match depth with
            | O => Some O
            | S depth' => separators Outside depth' r
            end
          else if (c =? ",")%byte then
            match depth with
            | O => option_map S (separators Outside O r)
            | S _ => separators Outside depth r
            end
          else separators Outside depth r
      end
  end.

(** The number of top-level elements of an array, read off the text alone:
    none when only white space stands between the brackets, and one more than
    the separating commas otherwise. *)
Definition top_level_elements (data : bytes) : option nat :=
  match data with
  | c :: r =>
      if (c =? "[")%byte then
        match json.skip_ws r with
        | c' :: _ =>
            if (c' =? "]")%byte then Some O
            else option_map S (separators Outside O r)
        | [] => None
        end
      else None
  | [] => None
  end.

(** A byte that changes nothing for a reader outside a string. *)
Definition inert (c : byte) : bool :=
  negb ((c =? x22) || (c =? "[") || (c =? "{") || (c =? "]") || (c =? "}")
        || (c =? ","))%byte.

(** * Properties *)

(** ** The JSON parser *)

Lemma skip_ws_length (s : bytes) : (length (json.skip_ws s) ≤ length s)%nat.
Proof.
  induction s as [|b r IH]; cbn; [lia|].
  destruct (json.is_ws b); cbn; lia.
Qed.

Lemma skip_ws_head (s : bytes) (c : byte) (r : bytes) :
  json.skip_ws s = c :: r → json.is_ws c = false.
Proof.
  induction s as [|b s IH]; cbn; [discriminate|].
  destruct (json.is_ws b) eqn:E; [exact IH|].
  now intros [= <- _].
Qed.

Lemma span_digits_length (s : bytes) :
  (length (json.span_digits s).2 ≤ length s)%nat.
Proof.
  induction s as [|d r IH]; cbn; [lia|].
  destruct (json.is_digit d); [|cbn; lia].
  destruct (json.span_digits r) as [ds r']. cbn in *. lia.
Qed.

Lemma strip_prefix_length (w s r : bytes) :
  json.strip_prefix w s = Some r → (length r ≤ length s)%nat.
Proof.
  revert s. induction w as [|a w IH]; intros s; cbn.
  - now intros [= ->].
  - destruct s as [|b s]; [discriminate|].
    destruct (Byte.eqb a b); [|discriminate].
    intros H. apply IH in H. cbn. lia.
Qed.

Lemma string_body_progress (s b r : bytes) :
  json.string_body s = Some (b, r) → (length r < length s)%nat.
Proof.
  revert b r. generalize (Nat.le_refl (length s)).
  generalize (length s) at 2 as n. intros n. revert s.
  induction n as [n IH] using lt_wf_ind. intros s Hle b r.
  assert (Hrec : ∀ s' b' r', (length s' < length s)%nat →
            json.string_body s' = Some (b', r') → (length r' < length s')%nat).
  { intros s' b' r' Hlt. apply (IH (length s')); lia. }
  clear IH.
  destruct s as [|c s1]; [discriminate|].
  cbn [json.string_body].
  destruct (Byte.eqb c x22).
  { intros [= ? ?]; subst. cbn. lia. }
  destruct (Byte.eqb c x5c).
  2:{ destruct (N.ltb _ _); [discriminate|].
      destruct (json.string_body s1) as [[out rest]|] eqn:E; [|discriminate].
      intros [= ? ?]; subst. apply Hrec in E; cbn in *; lia. }
  destruct s1 as [|e s2]; [discriminate|].
  destruct (Byte.eqb e "u").
  2:{ destruct (json.simple_escape e); [|discriminate].
      destruct (json.string_body s2) as [[out rest]|] eqn:E; [|discriminate].
      intros [= ? ?]; subst. apply Hrec in E; cbn in *; lia. }
  destruct s2 as [|h1 [|h2 [|h3 [|h4 s3]]]]; try discriminate.
  destruct (json.hex4 h1 h2 h3 h4) as [u|]; [|discriminate].
  assert (Hplain : ∀ pre,
            match json.string_body s3 with
            | Some (out, rest) => Some ((pre ++ out)%list, rest)
            | None => None
            end = Some (b, r) →
            (length r < length (c :: e :: h1 :: h2 :: h3 :: h4 :: s3))%nat).
  { intros pre.
    destruct (json.string_body s3) as [[out rest]|] eqn:E; [|discriminate].
    intros [= ? ?]; subst. apply Hrec in E; cbn in *; lia. }
  destruct (_ && _)%bool; [|apply Hplain].
  destruct s3 as [|b1 [|b2 [|g1 [|g2 [|g3 [|g4 s4]]]]]]; try apply Hplain.
  destruct (json.surrogate_pair u _) as [[rr ?]|]; [|apply Hplain].
  destruct (json.string_body s4) as [[out rest]|] eqn:E; [|discriminate].
  intros [= ? ?]; subst. apply Hrec in E; cbn in *; lia.
Qed.

Lemma scan_number_progress (s lit r : bytes) :
  json.scan_number s = Some (lit, r) → (length r < length s)%nat.
Proof.
  unfold json.scan_number.
  set (p := match s with
            | c :: r0 => if Byte.eqb c "-" then ([c], r0) else ([], s)
            | [] => ([], s)
            end).
  assert (Hp : (length p.2 ≤ length s)%nat).
  { subst p. destruct s as [|c r0]; [cbn; lia|].
    destruct (Byte.eqb c "-"); cbn; lia. }
  destruct p as [sign s1]. cbn [snd] in Hp.
  destruct (json.scan_int s1) as [[i s2]|] eqn:Ei; [|discriminate].
  assert (Hi : (length s2 < length s1)%nat).
  { unfold json.scan_int in Ei. destruct s1 as [|d r0]; [discriminate|].
    destruct (Byte.eqb d "0"); [injection Ei as _ <-; cbn; lia|].
    destruct (json.is_digit d); [|discriminate].
    pose proof (span_digits_length r0) as Hd.
    destruct (json.span_digits r0) as [ds r']. injection Ei as _ <-.
    cbn in *. lia. }
  destruct (json.scan_frac s2) as [[f s3]|] eqn:Ef; [|discriminate].
  assert (Hf : (length s3 ≤ length s2)%nat).
  { unfold json.scan_frac in Ef. destruct s2 as [|d r0].
    - injection Ef as _ <-. lia.
    - destruct (Byte.eqb d ".").
      + pose proof (span_digits_length r0) as Hd.
        destruct (json.span_digits r0) as [[|d' ds] r']; [discriminate|].
        injection Ef as _ <-. cbn in *. lia.
      + injection Ef as _ <-. lia. }
  destruct (json.scan_exp s3) as [[e s4]|] eqn:Ee; [|discriminate].
  assert (He : (length s4 ≤ length s3)%nat).
  { unfold json.scan_exp in Ee. destruct s3 as [|d r0].
    - injection Ee as _ <-. lia.
    - destruct (_ || _)%bool.
      + set (q := match r0 with
                  | c :: r' =>
                      if (Byte.eqb c "+" || Byte.eqb c "-")%bool
                      then ([c], r') else ([], r0)
                  | [] => ([], r0)
                  end) in Ee.
        assert (Hq : (length q.2 ≤ length r0)%nat).
        { subst q. destruct r0 as [|c r']; [cbn; lia|].
          destruct (_ || _)%bool; cbn; lia. }
        destruct q as [sg r1]. cbn [snd] in Hq.
        pose proof (span_digits_length r1) as Hd.
        destruct (json.span_digits r1) as [[|d' ds] r']; [discriminate|].
        injection Ee as _ <-. cbn in *. lia.
      + injection Ee as _ <-. lia. }
  intros [= _ <-]. lia.
Qed.

Lemma scalar_progress (s : bytes) (v : json.value) (r : bytes) :
  json.scalar s = Some (v, r) → (length r < length s)%nat.
Proof.
  unfold json.scalar. destruct s as [|c r0]; [discriminate|].
  destruct (Byte.eqb c x22).
  { destruct (json.string_body r0) as [[b rest]|] eqn:E; [|discriminate].
    intros [= _ <-]. apply string_body_progress in E. cbn. lia. }
  assert (Hlit : ∀ w (x : json.value),
            option_map (pair x) (json.strip_prefix w r0) = Some (v, r) →
            (length r < length (c :: r0))%nat).
  { intros w x. destruct (json.strip_prefix w r0) as [r'|] eqn:E;
      [|discriminate].
    intros [= _ <-]. apply strip_prefix_length in E. cbn. lia. }
  destruct (Byte.eqb c "t"); [apply Hlit|].
  destruct (Byte.eqb c "f"); [apply Hlit|].
  destruct (Byte.eqb c "n"); [apply Hlit|].
  destruct (json.scan_number (c :: r0)) as [[lit rest]|] eqn:E; [|discriminate].
  intros [= _ <-]. now apply scan_number_progress in E.
Qed.

(** Every parser that succeeds has consumed at least one byte. *)
Lemma parse_progress (n : nat) :
  (∀ s v r, json.parse_value n s = Some (v, r) → (length r < length s)%nat)
  ∧ (∀ s vs r, json.parse_elements n s = Some (vs, r) →
       (length r < length s)%nat)
  ∧ (∀ s ms r, json.parse_members n s = Some (ms, r) →
       (length r < length s)%nat).
Proof.
  induction n as [|n (IHv & IHe & IHm)]; [repeat split; discriminate|].
  repeat split.
  - intros s v r. cbn [json.parse_value].
    destruct s as [|c r0]; [discriminate|].
    destruct (Byte.eqb c "[").
    { pose proof (skip_ws_length r0) as Hw.
      destruct (json.skip_ws r0) as [|c' r'] eqn:E; [discriminate|].
      destruct (Byte.eqb c' "]").
      - intros [= _ <-]. cbn in *. lia.
      - destruct (json.parse_elements n (c' :: r')) as [[vs rest]|] eqn:E';
          [|discriminate].
        intros [= _ <-]. apply IHe in E'. cbn in *. lia. }
    destruct (Byte.eqb c "{").
    { pose proof (skip_ws_length r0) as Hw.
      destruct (json.skip_ws r0) as [|c' r'] eqn:E; [discriminate|].
      destruct (Byte.eqb c' "}").
      - intros [= _ <-]. cbn in *. lia.
      - destruct (json.parse_members n (c' :: r')) as [[ms rest]|] eqn:E';
          [|discriminate].
        intros [= _ <-]. apply IHm in E'. cbn in *. lia. }
    apply scalar_progress.
  - intros s vs r. cbn [json.parse_elements].
    destruct (json.parse_value n s) as [[v r0]|] eqn:Ev; [|discriminate].
    apply IHv in Ev. pose proof (skip_ws_length r0) as Hw.
    destruct (json.skip_ws r0) as [|c r'] eqn:E; [discriminate|].
    destruct (Byte.eqb c ",").
    + pose proof (skip_ws_length r') as Hw'.
      destruct (json.parse_elements n (json.skip_ws r')) as [[vs' rest]|] eqn:E';
        [|discriminate].
      intros [= _ <-]. apply IHe in E'. cbn in *. lia.
    + destruct (Byte.eqb c "]"); [|discriminate].
      intros [= _ <-]. cbn in *. lia.
  - intros s ms r. cbn [json.parse_members].
    destruct s as [|q r0]; [discriminate|].
    destruct (Byte.eqb q x22); [|discriminate].
    destruct (json.string_body r0) as [[k r1]|] eqn:Ek; [|discriminate].
    apply string_body_progress in Ek. pose proof (skip_ws_length r1) as Hw1.
    destruct (json.skip_ws r1) as [|c r2] eqn:E1; [discriminate|].
    destruct (Byte.eqb c ":"); [|discriminate].
    pose proof (skip_ws_length r2) as Hw2.
    destruct (json.parse_value n (json.skip_ws r2)) as [[v r3]|] eqn:Ev;
      [|discriminate].
    apply IHv in Ev. pose proof (skip_ws_length r3) as Hw3.
    destruct (json.skip_ws r3) as [|c' r4] eqn:E3; [discriminate|].
    destruct (Byte.eqb c' ",").
    + pose proof (skip_ws_length r4) as Hw4.
      destruct (json.parse_members n (json.skip_ws r4)) as [[ms' rest]|] eqn:E';
        [|discriminate].
      intros [= _ <-]. apply IHm in E'. cbn in *. lia.
    + destruct (Byte.eqb c' "}"); [|discriminate].
      intros [= _ <-]. cbn in *. lia.
Qed.

(** A parse that succeeds with some fuel succeeds, with the same result, with
    any fuel that is at least the number of bytes it consumed. *)
Lemma parse_fuel (m : nat) :
  (∀ s v r, json.parse_value m s = Some (v, r) →
     ∀ n, (length s - length r ≤ n)%nat → json.parse_value n s = Some (v, r))
  ∧ (∀ s vs r, json.parse_elements m s = Some (vs, r) →
       ∀ n, (length s - length r ≤ n)%nat →
         json.parse_elements n s = Some (vs, r))
  ∧ (∀ s ms r, json.parse_members m s = Some (ms, r) →
       ∀ n, (length s - length r ≤ n)%nat →
         json.parse_members n s = Some (ms, r)).
Proof.
  induction m as [|m (IHv & IHe & IHm)]; [repeat split; discriminate|].
  destruct (parse_progress m) as (Pv & Pe & Pm).
  repeat split.
  - intros s v r Hrun n Hn.
    pose proof (proj1 (parse_progress (S m)) _ _ _ Hrun) as Hlt.
    destruct n as [|n]; [lia|].
    cbn [json.parse_value] in *.
    destruct s as [|c r0]; [discriminate|].
    destruct (Byte.eqb c "[").
    { pose proof (skip_ws_length r0) as Hw.
      destruct (json.skip_ws r0) as [|c' r'] eqn:E; [discriminate|].
      destruct (Byte.eqb c' "]"); [exact Hrun|].
      destruct (json.parse_elements m (c' :: r')) as [[vs rest]|] eqn:E';
        [|discriminate].
      injection Hrun as <- <-.
      rewrite (IHe _ _ _ E' n); [reflexivity|]. cbn in *. lia. }
    destruct (Byte.eqb c "{"); [|exact Hrun].
    pose proof (skip_ws_length r0) as Hw.
    destruct (json.skip_ws r0) as [|c' r'] eqn:E; [discriminate|].
    destruct (Byte.eqb c' "}"); [exact Hrun|].
    destruct (json.parse_members m (c' :: r')) as [[ms rest]|] eqn:E';
      [|discriminate].
    injection Hrun as <- <-.
    rewrite (IHm _ _ _ E' n); [reflexivity|]. cbn in *. lia.
  - intros s vs r Hrun n Hn.
    pose proof (proj1 (proj2 (parse_progress (S m))) _ _ _ Hrun) as Hlt.
    destruct n as [|n]; [lia|].
    cbn [json.parse_elements] in *.
    destruct (json.parse_value m s) as [[v r0]|] eqn:Ev; [|discriminate].
    pose proof (Pv _ _ _ Ev) as Hv. pose proof (skip_ws_length r0) as Hw.
    destruct (json.skip_ws r0) as [|c r'] eqn:E; [discriminate|].
    destruct (Byte.eqb c ",") eqn:Ec.
    + pose proof (skip_ws_length r') as Hw'.
      destruct (json.parse_elements m (json.skip_ws r')) as [[vs' rest]|] eqn:E';
        [|discriminate].
      pose proof (Pe _ _ _ E') as He.
      injection Hrun as <- <-.
      rewrite (IHv _ _ _ Ev n), E, Ec by (cbn in *; lia).
      rewrite (IHe _ _ _ E' n); [reflexivity|]. cbn in *. lia.
    + destruct (Byte.eqb c "]") eqn:Ec'; [|discriminate].
      injection Hrun as <- <-.
      rewrite (IHv _ _ _ Ev n), E, Ec, Ec' by (cbn in *; lia). reflexivity.
  - intros s ms r Hrun n Hn.
    pose proof (proj2 (proj2 (parse_progress (S m))) _ _ _ Hrun) as Hlt.
    destruct n as [|n]; [lia|].
    cbn [json.parse_members] in *.
    destruct s as [|q r0]; [discriminate|].
    destruct (Byte.eqb q x22); [|discriminate].
    destruct (json.string_body r0) as [[k r1]|] eqn:Ek; [|discriminate].
    apply string_body_progress in Ek. pose proof (skip_ws_length r1) as Hw1.
    destruct (json.skip_ws r1) as [|c r2] eqn:E1; [discriminate|].
    destruct (Byte.eqb c ":"); [|discriminate].
    pose proof (skip_ws_length r2) as Hw2.
    destruct (json.parse_value m (json.skip_ws r2)) as [[v r3]|] eqn:Ev;
      [|discriminate].
    pose proof (Pv _ _ _ Ev) as Hv. pose proof (skip_ws_length r3) as Hw3.
    destruct (json.skip_ws r3) as [|c' r4] eqn:E3; [discriminate|].
    destruct (Byte.eqb c' ",") eqn:Ec.
    + pose proof (skip_ws_length r4) as Hw4.
      destruct (json.parse_members m (json.skip_ws r4)) as [[ms' rest]|] eqn:E';
        [|discriminate].
      pose proof (Pm _ _ _ E') as Hm.
      injection Hrun as <- <-.
      rewrite (IHv _ _ _ Ev n), E3, Ec by (cbn in *; lia).
      rewrite (IHm _ _ _ E' n); [reflexivity|]. cbn in *. lia.
    + destruct (Byte.eqb c' "}") eqn:Ec'; [|discriminate].
      injection Hrun as <- <-.
      rewrite (IHv _ _ _ Ev n), E3, Ec, Ec' by (cbn in *; lia). reflexivity.
Qed.

(** The fuel [json.parse] gives is enough: a text that parses with some fuel
    parses with that of [json.parse]. *)
Lemma parse_value_fuel (data : bytes) (m : nat) (v : json.value) (rest : bytes) :
  json.parse_value m (json.skip_ws data) = Some (v, rest) →
  json.parse_value (S (length data)) (json.skip_ws data) = Some (v, rest).
Proof.
  intros Hrun. apply (proj1 (parse_fuel m) _ _ _ Hrun).
  pose proof (skip_ws_length data). lia.
Qed.

(** The raw bytes kept for a member never begin with white space. *)
Lemma members_raw (n : nat) (s : bytes)
    (ms : list (string * (bytes * json.value))) (rest : bytes) :
  json.parse_members n s = Some (ms, rest) →
  Forall (λ m, ∀ c r, m.2.1 = c :: r → json.is_ws c = false) ms.
Proof.
  revert s ms rest. induction n as [|n IH]; intros s ms rest; [discriminate|].
  cbn [json.parse_members].
  destruct s as [|q r0]; [discriminate|].
  destruct (Byte.eqb q x22); [|discriminate].
  destruct (json.string_body r0) as [[k r1]|]; [|discriminate].
  destruct (json.skip_ws r1) as [|c r2]; [discriminate|].
  destruct (Byte.eqb c ":"); [|discriminate].
  destruct (json.parse_value n (json.skip_ws r2)) as [[v r3]|]; [|discriminate].
  assert (Hraw : ∀ c' r', json.consumed (json.skip_ws r2) r3 = c' :: r' →
                   json.is_ws c' = false).
  { intros c' r'. unfold json.consumed.
    destruct (json.skip_ws r2) as [|c0 s0] eqn:E.
    - now rewrite take_nil.
    - destruct (length (c0 :: s0) - length r3)%nat; [discriminate|].
      cbn. intros [= <- _]. exact (skip_ws_head _ _ _ E). }
  destruct (json.skip_ws r3) as [|c' r4]; [discriminate|].
  destruct (Byte.eqb c' ",").
  - destruct (json.parse_members n (json.skip_ws r4)) as [[ms' rest']|] eqn:E';
      [|discriminate].
    intros [= <- <-]. constructor; [exact Hraw|]. exact (IH _ _ _ E').
  - destruct (Byte.eqb c' "}"); [|discriminate].
    intros [= <- <-]. constructor; [exact Hraw|constructor].
Qed.

(** ** The shape decoder *)

Lemma store_elements_length {A : Type} (store : json.value → A → Dec A)
    (zero : A) (vs : list json.value) :
  length (json.store_elements store zero vs).1 = length vs.
Proof.
  induction vs as [|v vs IH]; simpl; [reflexivity|].
  unfold mbind, json.Dec_bind, mret, json.Dec_ret.
  destruct (store v zero) as [x e].
  destruct (json.store_elements store zero vs) as [xs e'].
  simpl in *. now rewrite IH.
Qed.

(** A text whose first byte is [[] parses to an array, if it parses. *)
Lemma parse_bracket (rest : bytes) (v : json.value) :
  json.parse ("["%byte :: rest) = Some v → ∃ vs, v = json.Array vs.
Proof.
  unfold json.parse. cbn [json.skip_ws json.is_ws length].
  change (json.is_ws "["%byte) with false. cbn iota.
  cbn [json.parse_value]. change ("[" =? "[")%byte with true. cbn iota.
  destruct (json.skip_ws rest) as [|c' r'] eqn:E; [discriminate|].
  destruct (c' =? "]")%byte.
  - destruct (json.skip_ws r'); [|discriminate].
    intros [= <-]. eauto.
  - destruct (json.parse_elements _ _) as [[vs r'']|]; [|discriminate].
    destruct (json.skip_ws r''); [|discriminate].
    intros [= <-]. eauto.
Qed.

(** A text whose first byte is [{] parses to an object, if it parses. *)
Lemma parse_brace (rest : bytes) (v : json.value) :
  json.parse ("{"%byte :: rest) = Some v → ∃ ms, v = json.Object ms.
Proof.
  unfold json.parse. cbn [json.skip_ws json.is_ws length].
  change (json.is_ws "{"%byte) with false. cbn iota.
  cbn [json.parse_value]. change ("{" =? "[")%byte with false.
  change ("{" =? "{")%byte with true. cbn iota.
  destruct (json.skip_ws rest) as [|c' r'] eqn:E; [discriminate|].
  destruct (c' =? "}")%byte.
  - destruct (json.skip_ws r'); [|discriminate].
    intros [= <-]. eauto.
  - destruct (json.parse_members _ _) as [[vs r'']|]; [|discriminate].
    destruct (json.skip_ws r''); [|discriminate].
    intros [= <-]. eauto.
Qed.

(** C1.  When the first byte is [{] and the input decodes as one Assumption
    record [r], the decoder leaves the sequence [[r]], of length one, in the
    receiver, sets [Count] to 1 and returns no error, whatever the receiver
    held before. *)
Theorem C1_object_shape (a : Assumptions) (data : bytes) (r : Assumption) :
  head data = Some "{"%byte →
  json.Unmarshal decode_Assumption data zero_Assumption = (r, None) →
  Assumptions_UnmarshalJSON a data =
    ({| Assumptions_Assumption := [r]; Assumptions_Count := 1 |}, None).
Proof.
  intros Hhead Hdec.
  destruct data as [|c rest]; [discriminate|].
  injection Hhead as ->.
  unfold Assumptions_UnmarshalJSON.
  change ("{" =? "{")%byte with true. cbn iota.
  now rewrite Hdec.
Qed.

Lemma C1_object_shape_witness :
  Assumptions_UnmarshalJSON zero_Assumptions dow_chemical =
    ({| Assumptions_Assumption := [dow_chemical_Assumption];
        Assumptions_Count := 1 |}, None).
Proof.
  apply (C1_object_shape zero_Assumptions dow_chemical dow_chemical_Assumption).
  - reflexivity.
  - vm_compute. reflexivity.
Defined.

(** Whether the decode of the object succeeds or not, the receiver is left
    with a sequence of length one and a count of one. *)
Lemma object_shape_one (a : Assumptions) (data : bytes) :
  head data = Some "{"%byte →
  length (Assumptions_Assumption (Assumptions_UnmarshalJSON a data).1) = 1%nat
  ∧ Assumptions_Count (Assumptions_UnmarshalJSON a data).1 = 1%Z.
Proof.
  destruct data as [|c rest]; [discriminate|]. intros [= ->].
  unfold Assumptions_UnmarshalJSON.
  change ("{" =? "{")%byte with true. cbn iota.
  destruct (json.Unmarshal decode_Assumption _ _) as [x err].
  split; reflexivity.
Qed.

(** ** Counting the elements of an array on its text *)

Lemma separators_plain (c : byte) (r : bytes) (depth : nat) :
  inert c = true →
  separators Outside depth (c :: r) = separators Outside depth r.
Proof.
  unfold inert. intros H. apply negb_true_iff in H.
  repeat (apply orb_false_elim in H as [H ?]).
  cbn [separators].
  repeat match goal with E : (_ =? _)%byte = false |- _ => rewrite E; clear E end.
  cbn. now destruct depth.
Qed.

Lemma ws_plain (c : byte) : json.is_ws c = true → inert c = true.
Proof. destruct c; try discriminate; reflexivity. Qed.

Lemma digit_plain (c : byte) : json.is_digit c = true → inert c = true.
Proof. destruct c; try discriminate; reflexivity. Qed.

Lemma eqb_plain (c d : byte) :
  (c =? d)%byte = true → inert d = true → inert c = true.
Proof. intros E. apply Byte.byte_dec_bl in E. now subst. Qed.

Lemma hex_inside (c : byte) (n : N) :
  json.hex_val c = Some n → (c =? x22)%byte = false ∧ (c =? x5c)%byte = false.
Proof. destruct c; try discriminate; split; reflexivity. Qed.

Lemma separators_skip_ws (s : bytes) (depth : nat) :
  separators Outside depth (json.skip_ws s) = separators Outside depth s.
Proof.
  induction s as [|c r IH]; [reflexivity|]. cbn [json.skip_ws].
  destruct (json.is_ws c) eqn:E; [|reflexivity].
  now rewrite (separators_plain _ _ _ (ws_plain _ E)).
Qed.

Lemma separators_hex4 (h1 h2 h3 h4 : byte) (u : N) (r : bytes) (depth : nat) :
  json.hex4 h1 h2 h3 h4 = Some u →
  separators Inside depth (h1 :: h2 :: h3 :: h4 :: r)
  = separators Inside depth r.
Proof.
  unfold json.hex4.
  destruct (json.hex_val h1) eqn:E1; [|discriminate].
  destruct (json.hex_val h2) eqn:E2; [|discriminate].
  destruct (json.hex_val h3) eqn:E3; [|discriminate].
  destruct (json.hex_val h4) eqn:E4; [|discriminate].
  intros _.
  destruct (hex_inside _ _ E1) as [A1 B1], (hex_inside _ _ E2) as [A2 B2],
    (hex_inside _ _ E3) as [A3 B3], (hex_inside _ _ E4) as [A4 B4].
  cbn [separators]. now rewrite A1, B1, A2, B2, A3, B3, A4, B4.
Qed.

(** A reader inside a string literal is outside it after its closing
    quote. *)
Lemma separators_string_body (s b r : bytes) :
  json.string_body s = Some (b, r) →
  ∀ depth, separators Inside depth s = separators Outside depth r.
Proof.
  revert b r. generalize (Nat.le_refl (length s)).
  generalize (length s) at 2 as n. intros n. revert s.
  induction n as [n IH] using lt_wf_ind. intros s Hle b r.
  assert (Hrec : ∀ s' b' r', (length s' < length s)%nat →
            json.string_body s' = Some (b', r') →
            ∀ depth, separators Inside depth s' = separators Outside depth r').
  { intros s' b' r' Hlt. apply (IH (length s')); lia. }
  clear IH.
  destruct s as [|c s1]; [discriminate|].
  cbn [json.string_body separators].
  destruct (Byte.eqb c x22).
  { intros [= ? ?]; subst. reflexivity. }
  destruct (Byte.eqb c x5c).
  2:{ destruct (N.ltb _ _); [discriminate|].
      destruct (json.string_body s1) as [[out rest]|] eqn:E; [|discriminate].
      intros [= ? ?]; subst. intros depth.
      refine (Hrec _ _ _ _ E depth); cbn; lia. }
  destruct s1 as [|e s2]; [discriminate|].
  cbn [separators].
  destruct (Byte.eqb e "u").
  2:{ destruct (json.simple_escape e); [|discriminate].
      destruct (json.string_body s2) as [[out rest]|] eqn:E; [|discriminate].
      intros [= ? ?]; subst. intros depth.
      refine (Hrec _ _ _ _ E depth); cbn; lia. }
  destruct s2 as [|h1 [|h2 [|h3 [|h4 s3]]]]; try discriminate.
  destruct (json.hex4 h1 h2 h3 h4) as [u|] eqn:Eh; [|discriminate].
  assert (Hplain : ∀ pre,
            match json.string_body s3 with
            | Some (out, rest) => Some ((pre ++ out)%list, rest)
            | None => None
            end = Some (b, r) →
            ∀ depth, separators Inside depth (h1 :: h2 :: h3 :: h4 :: s3)
                     = separators Outside depth r).
  { intros pre.
    destruct (json.string_body s3) as [[out rest]|] eqn:E; [|discriminate].
    intros [= ? ?]; subst. intros depth.
    rewrite (separators_hex4 _ _ _ _ _ _ _ Eh).
    refine (Hrec _ _ _ _ E depth); cbn; lia. }
  destruct (_ && _)%bool; [|apply Hplain].
  destruct s3 as [|b1 [|b2 [|g1 [|g2 [|g3 [|g4 s4]]]]]]; try apply Hplain.
  destruct (json.surrogate_pair u _) as [[rr ?]|] eqn:Es; [|apply Hplain].
  destruct (json.string_body s4) as [[out rest]|] eqn:E; [|discriminate].
  intros [= ? ?]; subst. intros depth.
  rewrite (separators_hex4 _ _ _ _ _ _ _ Eh).
  unfold json.surrogate_pair in Es.
  destruct (Byte.eqb b1 x5c && Byte.eqb b2 "u")%bool eqn:Eb; [|discriminate].
  apply andb_prop in Eb as [Eb1 Eb2]. apply Byte.byte_dec_bl in Eb1. subst b1.
  destruct (json.hex4 g1 g2 g3 g4) as [lo|] eqn:Eg; [|discriminate].
  change (separators Inside depth (x5c :: b2 :: g1 :: g2 :: g3 :: g4 :: s4))
    with (separators Inside depth (g1 :: g2 :: g3 :: g4 :: s4)).
  rewrite (separators_hex4 _ _ _ _ _ _ _ Eg).
  refine (Hrec _ _ _ _ E depth); cbn; lia.
Qed.

Lemma separators_span_digits (s : bytes) (depth : nat) :
  separators Outside depth (json.span_digits s).2
  = separators Outside depth s.
Proof.
  induction s as [|d r IH]; [reflexivity|]. cbn [json.span_digits].
  destruct (json.is_digit d) eqn:E; [|reflexivity].
  destruct (json.span_digits r) as [ds r']. cbn [snd] in *.
  now rewrite (separators_plain _ _ _ (digit_plain _ E)).
Qed.

Lemma separators_strip_prefix (w s r : bytes) (depth : nat) :
  forallb inert w = true →
  json.strip_prefix w s = Some r →
  separators Outside depth s = separators Outside depth r.
Proof.
  revert s. induction w as [|a w IH]; intros s Hw.
  - now intros [= ->].
  - cbn [forallb] in Hw. apply andb_prop in Hw as [Ha Hw].
    destruct s as [|c s]; [discriminate|]. cbn [json.strip_prefix].
    destruct (Byte.eqb a c) eqn:E; [|discriminate].
    apply Byte.byte_dec_bl in E. subst c.
    intros H. rewrite (separators_plain _ _ _ Ha). now apply IH.
Qed.

Lemma separators_number (s lit r : bytes) (depth : nat) :
  json.scan_number s = Some (lit, r) →
  separators Outside depth s = separators Outside depth r.
Proof.
  unfold json.scan_number.
  set (p := match s with
            | c :: r0 => if Byte.eqb c "-" then ([c], r0) else ([], s)
            | [] => ([], s)
            end).
  assert (Hp : separators Outside depth s = separators Outside depth p.2).
  { subst p. destruct s as [|c r0]; [reflexivity|].
    destruct (Byte.eqb c "-") eqn:E; [|reflexivity].
    cbn [snd]. apply separators_plain. now apply (eqb_plain _ _ E). }
  destruct p as [sign s1]. cbn [snd] in Hp. rewrite Hp. clear Hp.
  destruct (json.scan_int s1) as [[i s2]|] eqn:Ei; [|discriminate].
  assert (Hi : separators Outside depth s1 = separators Outside depth s2).
  { unfold json.scan_int in Ei. destruct s1 as [|d r0]; [discriminate|].
    destruct (Byte.eqb d "0") eqn:E0.
    - injection Ei as _ <-. apply separators_plain. now apply (eqb_plain _ _ E0).
    - destruct (json.is_digit d) eqn:Ed; [|discriminate].
      pose proof (separators_span_digits r0 depth) as Hd.
      destruct (json.span_digits r0) as [ds r']. injection Ei as _ <-.
      cbn [snd] in Hd. rewrite Hd.
      apply separators_plain, digit_plain, Ed. }
  rewrite Hi. clear Hi.
  destruct (json.scan_frac s2) as [[f s3]|] eqn:Ef; [|discriminate].
  assert (Hf : separators Outside depth s2 = separators Outside depth s3).
  { unfold json.scan_frac in Ef. destruct s2 as [|d r0].
    - now injection Ef as _ <-.
    - destruct (Byte.eqb d ".") eqn:E.
      + pose proof (separators_span_digits r0 depth) as Hd.
        destruct (json.span_digits r0) as [[|d' ds] r']; [discriminate|].
        injection Ef as _ <-. cbn [snd] in Hd. rewrite Hd.
        apply separators_plain. now apply (eqb_plain _ _ E).
      + now injection Ef as _ <-. }
  rewrite Hf. clear Hf.
  destruct (json.scan_exp s3) as [[e s4]|] eqn:Ee; [|discriminate].
  assert (He : separators Outside depth s3 = separators Outside depth s4).
  { unfold json.scan_exp in Ee. destruct s3 as [|d r0].
    - now injection Ee as _ <-.
    - destruct (Byte.eqb d "e" || Byte.eqb d "E")%bool eqn:E.
      + assert (Hd0 : inert d = true).
        { apply orb_prop in E as [E|E]; now apply (eqb_plain _ _ E). }
        rewrite (separators_plain _ _ _ Hd0).
        set (q := match r0 with
                  | c :: r' =>
                      if (Byte.eqb c "+" || Byte.eqb c "-")%bool
                      then ([c], r') else ([], r0)
                  | [] => ([], r0)
                  end) in Ee.
        assert (Hq : separators Outside depth r0 = separators Outside depth q.2).
        { subst q. destruct r0 as [|c r']; [reflexivity|].
          destruct (Byte.eqb c "+" || Byte.eqb c "-")%bool eqn:Es;
            [|reflexivity].
          cbn [snd]. apply separators_plain.
          apply orb_prop in Es as [Es|Es]; now apply (eqb_plain _ _ Es). }
        destruct q as [sg r1]. cbn [snd] in Hq. rewrite Hq.
        pose proof (separators_span_digits r1 depth) as Hd.
        destruct (json.span_digits r1) as [[|d' ds] r']; [discriminate|].
        injection Ee as _ <-. cbn [snd] in Hd. now rewrite Hd.
      + now injection Ee as _ <-. }
  rewrite He. now intros [= _ <-].
Qed.

Lemma separators_scalar (s : bytes) (v : json.value) (r : bytes) (depth : nat) :
  json.scalar s = Some (v, r) →
  separators Outside depth s = separators Outside depth r.
Proof.
  unfold json.scalar. destruct s as [|c r0]; [discriminate|].
  destruct (Byte.eqb c x22) eqn:Eq.
  { destruct (json.string_body r0) as [[b rest]|] eqn:E; [|discriminate].
    intros [= _ <-]. cbn [separators]. rewrite Eq.
    exact (separators_string_body _ _ _ E depth). }
  assert (Hlit : ∀ d w (x : json.value),
            (c =? d)%byte = true → inert d = true → forallb inert w = true →
            option_map (pair x) (json.strip_prefix w r0) = Some (v, r) →
            separators Outside depth (c :: r0) = separators Outside depth r).
  { intros d w x Ec Hd Hw.
    destruct (json.strip_prefix w r0) as [r'|] eqn:E; [|discriminate].
    intros [= _ <-]. rewrite (separators_plain _ _ _ (eqb_plain _ _ Ec Hd)).
    exact (separators_strip_prefix _ _ _ _ Hw E). }
  destruct (Byte.eqb c "t") eqn:Et; [now apply (Hlit "t"%byte)|].
  destruct (Byte.eqb c "f") eqn:Ef; [now apply (Hlit "f"%byte)|].
  destruct (Byte.eqb c "n") eqn:En; [now apply (Hlit "n"%byte)|].
  destruct (json.scan_number (c :: r0)) as [[lit rest]|] eqn:E; [|discriminate].
  intros [= _ <-]. exact (separators_number _ _ _ _ E).
Qed.

(** A reader passes over a whole value without a change of depth; over the
    elements of an array, or the members of an object, up to the closing
    bracket, it comes back one level up.  Nothing is counted on the way when
    the value is nested. *)
Lemma separators_parse (n : nat) :
  (∀ s v r, json.parse_value n s = Some (v, r) →
     ∀ depth, separators Outside depth s = separators Outside depth r)
  ∧ (∀ s vs r, json.parse_elements n s = Some (vs, r) →
       ∀ depth, separators Outside (S depth) s = separators Outside depth r)
  ∧ (∀ s ms r, json.parse_members n s = Some (ms, r) →
       ∀ depth, separators Outside (S depth) s = separators Outside depth r).
Proof.
  induction n as [|n (IHv & IHe & IHm)]; [repeat split; discriminate|].
  repeat split.
  - intros s v r. cbn [json.parse_value].
    destruct s as [|c r0]; [discriminate|].
    destruct (Byte.eqb c "[") eqn:E1.
    { apply Byte.byte_dec_bl in E1. subst c.
      destruct (json.skip_ws r0) as [|c' r'] eqn:E; [discriminate|].
      destruct (Byte.eqb c' "]") eqn:E'.
      - apply Byte.byte_dec_bl in E'. subst c'. intros [= _ <-] depth.
        change (separators Outside depth ("["%byte :: r0))
          with (separators Outside (S depth) r0).
        now rewrite <- separators_skip_ws, E.
      - destruct (json.parse_elements n (c' :: r')) as [[vs rest]|] eqn:Ee;
          [|discriminate].
        intros [= _ <-] depth.
        change (separators Outside depth ("["%byte :: r0))
          with (separators Outside (S depth) r0).
        rewrite <- separators_skip_ws, E. exact (IHe _ _ _ Ee depth). }
    destruct (Byte.eqb c "{") eqn:E2.
    { apply Byte.byte_dec_bl in E2. subst c.
      destruct (json.skip_ws r0) as [|c' r'] eqn:E; [discriminate|].
      destruct (Byte.eqb c' "}") eqn:E'.
      - apply Byte.byte_dec_bl in E'. subst c'. intros [= _ <-] depth.
        change (separators Outside depth ("{"%byte :: r0))
          with (separators Outside (S depth) r0).
        now rewrite <- separators_skip_ws, E.
      - destruct (json.parse_members n (c' :: r')) as [[ms rest]|] eqn:Em;
          [|discriminate].
        intros [= _ <-] depth.
        change (separators Outside depth ("{"%byte :: r0))
          with (separators Outside (S depth) r0).
        rewrite <- separators_skip_ws, E. exact (IHm _ _ _ Em depth). }
    intros Hs depth. exact (separators_scalar _ _ _ _ Hs).
  - intros s vs r. cbn [json.parse_elements].
    destruct (json.parse_value n s) as [[v r0]|] eqn:Ev; [|discriminate].
    destruct (json.skip_ws r0) as [|c r'] eqn:E; [discriminate|].
    destruct (Byte.eqb c ",") eqn:Ec.
    + apply Byte.byte_dec_bl in Ec. subst c.
      destruct (json.parse_elements n (json.skip_ws r')) as [[vs' rest]|] eqn:Ee;
        [|discriminate].
      intros [= _ <-] depth.
      rewrite (IHv _ _ _ Ev), <- separators_skip_ws, E.
      change (separators Outside (S depth) (","%byte :: r'))
        with (separators Outside (S depth) r').
      rewrite <- separators_skip_ws. exact (IHe _ _ _ Ee depth).
    + destruct (Byte.eqb c "]") eqn:Ec'; [|discriminate].
      apply Byte.byte_dec_bl in Ec'. subst c.
      intros [= _ <-] depth.
      now rewrite (IHv _ _ _ Ev), <- separators_skip_ws, E.
  - intros s ms r. cbn [json.parse_members].
    destruct s as [|q r0]; [discriminate|].
    destruct (Byte.eqb q x22) eqn:Eq; [|discriminate].
    apply Byte.byte_dec_bl in Eq. subst q.
    destruct (json.string_body r0) as [[k r1]|] eqn:Ek; [|discriminate].
    destruct (json.skip_ws r1) as [|c r2] eqn:E1; [discriminate|].
    destruct (Byte.eqb c ":") eqn:Ec; [|discriminate].
    apply Byte.byte_dec_bl in Ec. subst c.
    destruct (json.parse_value n (json.skip_ws r2)) as [[v r3]|] eqn:Ev;
      [|discriminate].
    assert (Hmember : ∀ depth,
              separators Outside depth (x22 :: r0)
              = separators Outside depth (json.skip_ws r3)).
    { intros depth.
      change (separators Outside depth (x22 :: r0))
        with (separators Inside depth r0).
      rewrite (separators_string_body _ _ _ Ek), <- separators_skip_ws, E1.
      rewrite (separators_plain ":"%byte) by reflexivity.
      rewrite <- separators_skip_ws, (IHv _ _ _ Ev).
      now rewrite separators_skip_ws. }
    destruct (json.skip_ws r3) as [|c' r4] eqn:E3; [discriminate|].
    destruct (Byte.eqb c' ",") eqn:Ec.
    + apply Byte.byte_dec_bl in Ec. subst c'.
      destruct (json.parse_members n (json.skip_ws r4)) as [[ms' rest]|] eqn:Em;
        [|discriminate].
      intros [= _ <-] depth. rewrite Hmember.
      change (separators Outside (S depth) (","%byte :: r4))
        with (separators Outside (S depth) r4).
      rewrite <- separators_skip_ws. exact (IHm _ _ _ Em depth).
    + destruct (Byte.eqb c' "}") eqn:Ec'; [|discriminate].
      apply Byte.byte_dec_bl in Ec'. subst c'.
      intros [= _ <-] depth. now rewrite Hmember.
Qed.

(** The elements the parser gives for an array are as many as the text has
    separating commas, and one more. *)
Lemma elements_separators (n : nat) (s : bytes) (vs : list json.value)
    (r : bytes) :
  json.parse_elements n s = Some (vs, r) →
  option_map S (separators Outside O s) = Some (length vs).
Proof.
  revert s vs r. induction n as [|n IH]; intros s vs r; [discriminate|].
  cbn [json.parse_elements].
  destruct (json.parse_value n s) as [[v r0]|] eqn:Ev; [|discriminate].
  rewrite (proj1 (separators_parse n) _ _ _ Ev).
  rewrite <- separators_skip_ws.
  destruct (json.skip_ws r0) as [|c r'] eqn:E; [discriminate|].
  destruct (Byte.eqb c ",") eqn:Ec.
  - apply Byte.byte_dec_bl in Ec. subst c.
    destruct (json.parse_elements n (json.skip_ws r')) as [[vs' rest]|] eqn:Ee;
      [|discriminate].
    intros [= <- _].
    change (separators Outside O (","%byte :: r'))
      with (option_map S (separators Outside O r')).
    rewrite <- separators_skip_ws, (IH _ _ _ Ee). reflexivity.
  - destruct (Byte.eqb c "]") eqn:Ec'; [|discriminate].
    apply Byte.byte_dec_bl in Ec'. subst c.
    intros [= <- _]. reflexivity.
Qed.

(** The array a text parses to has the number of elements counted on the
    text. *)
Lemma parse_top_level (rest : bytes) (vs : list json.value) :
  json.parse ("["%byte :: rest) = Some (json.Array vs) →
  top_level_elements ("["%byte :: rest) = Some (length vs).
Proof.
  unfold json.parse, top_level_elements.
  change (json.skip_ws ("["%byte :: rest)) with ("["%byte :: rest).
  change ("[" =? "[")%byte with true. cbn iota.
  cbn [json.parse_value]. change ("[" =? "[")%byte with true. cbn iota.
  destruct (json.skip_ws rest) as [|c' r'] eqn:E; [discriminate|].
  destruct (c' =? "]")%byte.
  - destruct (json.skip_ws r'); [|discriminate]. now intros [= <-].
  - destruct (json.parse_elements _ _) as [[vs' r'']|] eqn:Ee; [|discriminate].
    destruct (json.skip_ws r''); [|discriminate]. intros [= <-].
    rewrite <- separators_skip_ws, E. exact (elements_separators _ _ _ _ Ee).
Qed.

(** C2.  When the first byte is [[] and decoding succeeds, the decoded
    sequence has as many Assumptions as the input has top-level array
    elements, the elements being counted on the text of the input, and
    [Count] is that number. *)
Theorem C2_array_shape (a a' : Assumptions) (data : bytes) :
  head data = Some "["%byte →
  Assumptions_UnmarshalJSON a data = (a', None) →
  top_level_elements data = Some (length (Assumptions_Assumption a'))
  ∧ Assumptions_Count a' = Z.of_nat (length (Assumptions_Assumption a')).
Proof.
  intros Hhead Hrun.
  destruct data as [|c rest]; [discriminate|].
  injection Hhead as ->.
  unfold Assumptions_UnmarshalJSON in Hrun.
  change ("[" =? "{")%byte with false in Hrun.
  change ("[" =? "[")%byte with true in Hrun. cbn iota in Hrun.
  unfold json.Unmarshal in Hrun.
  destruct (json.parse ("["%byte :: rest)) as [v|] eqn:Hparse;
    [|discriminate].
  destruct (parse_bracket _ _ Hparse) as [vs ->].
  rewrite (parse_top_level _ _ Hparse).
  cbn [json.store_slice] in Hrun.
  pose proof (store_elements_length decode_Assumption zero_Assumption vs) as Hlen.
  destruct (json.store_elements decode_Assumption zero_Assumption vs) as [xs [e|]];
    [discriminate|].
  injection Hrun as <-. cbn [fst Assumptions_Assumption Assumptions_Count] in *.
  now rewrite Hlen.
Qed.

(** Three elements, one of them [null], with commas inside a string and
    inside a nested array that separate nothing: a sequence of three, and a
    count of three. *)
Lemma C2_array_shape_witness :
  top_level_elements
    (json_text "[{'word':'a, b', 'values':[{}, {}]}, null, {'count':3}]")
  = Some 3%nat
  ∧ length (Assumptions_Assumption
              (Assumptions_UnmarshalJSON zero_Assumptions
                 (json_text "[{'word':'a, b', 'values':[{}, {}]}, null, {'count':3}]")).1)
    = 3%nat
  ∧ Assumptions_Count
      (Assumptions_UnmarshalJSON zero_Assumptions
         (json_text "[{'word':'a, b', 'values':[{}, {}]}, null, {'count':3}]")).1
    = 3%Z.
Proof.
  destruct (C2_array_shape zero_Assumptions _
              (json_text "[{'word':'a, b', 'values':[{}, {}]}, null, {'count':3}]")
              eq_refl eq_refl) as [Hn Hc].
  split; [exact Hn|]. split; [reflexivity|exact Hc].
Defined.

(** C10.  After every decode that returns no error, [Count] is the length
    of the decoded sequence, for both shapes and whatever the receiver held
    before the call. *)
Theorem C10_count_is_length (a a' : Assumptions) (data : bytes) :
  Assumptions_UnmarshalJSON a data = (a', None) →
  Assumptions_Count a' = Z.of_nat (length (Assumptions_Assumption a')).
Proof.
  unfold Assumptions_UnmarshalJSON.
  destruct data as [|c rest]; [discriminate|].
  destruct (c =? "{")%byte.
  - destruct (json.Unmarshal decode_Assumption _ _) as [x err].
    intros [= <- _]. reflexivity.
  - destruct (c =? "[")%byte; [|discriminate].
    destruct (json.Unmarshal _ _ _) as [xs [e|]]; [discriminate|].
    intros [= <-]. reflexivity.
Qed.

(** The wire says [count: 2]; the receiver held a count of 7; the count
    after the call is 1, the length of the decoded sequence. *)
Lemma C10_count_is_length_witness :
  Assumptions_Count
    (Assumptions_UnmarshalJSON
       {| Assumptions_Assumption := []; Assumptions_Count := 7 |}
       dow_chemical).1
  = Z.of_nat
      (length
         (Assumptions_Assumption
            (Assumptions_UnmarshalJSON
               {| Assumptions_Assumption := []; Assumptions_Count := 7 |}
               dow_chemical).1)).
Proof.
  apply (C10_count_is_length
           {| Assumptions_Assumption := []; Assumptions_Count := 7 |} _
           dow_chemical).
  vm_compute. reflexivity.
Defined.

Lemma Errorf_unrecognized (c : byte) :
  errors.Errorf "assumptions json does not indicate an object or array (%s)"
    [string_of_byte c]
  = unrecognized_shape c.
Proof. reflexivity. Qed.

(** Below 0x80 the string of a byte is that byte; from 0x80 on it is the
    two-byte UTF-8 encoding of the value. *)
Lemma string_of_byte_low (c : byte) :
  (to_N c < 128)%N → string_of_byte c = string_of_list_byte [c].
Proof.
  intros H. unfold string_of_byte, utf8.EncodeRune.
  apply N.ltb_lt in H as ->. unfold byte_of_N.
  rewrite N.mod_small by (pose proof (Byte.to_N_bounded c); lia).
  now rewrite Byte.of_to_N.
Qed.

Lemma string_of_byte_high :
  string_of_byte xe9 = string_of_list_byte [xc3; xa9].
Proof. reflexivity. Qed.

Lemma ws_not_shape (c : byte) :
  json.is_ws c = true → (c =? "{")%byte = false ∧ (c =? "[")%byte = false.
Proof.
  unfold json.is_ws. intros H.
  repeat (apply orb_prop in H as [H|H]);
    apply Byte.byte_dec_bl in H; subst c; split; reflexivity.
Qed.

(** C3, as the code has it.  The dispatch reads the very first byte of the
    raw value and skips nothing: an input that begins with a JSON white-space
    byte is refused with the error for an unrecognized shape, which names that
    byte, and the receiver is left as it was. *)
Theorem C3_no_whitespace_skipped (a : Assumptions) (c : byte) (rest : bytes) :
  json.is_ws c = true →
  Assumptions_UnmarshalJSON a (c :: rest) = (a, Some (unrecognized_shape c)).
Proof.
  intros Hws. destruct (ws_not_shape c Hws) as [H1 H2].
  unfold Assumptions_UnmarshalJSON. rewrite H1, H2.
  now rewrite Errorf_unrecognized.
Qed.

Lemma C3_no_whitespace_skipped_witness :
  Assumptions_UnmarshalJSON zero_Assumptions (x20 :: dow_chemical)
  = (zero_Assumptions, Some (unrecognized_shape x20)).
Proof.
  apply (C3_no_whitespace_skipped zero_Assumptions x20 dow_chemical).
  reflexivity.
Defined.

(** C3 as stated fails: the object [{}] decodes, the same bytes after one
    space do not. *)
Lemma C3_counterexample :
  json.is_ws x20 = true
  ∧ (Assumptions_UnmarshalJSON zero_Assumptions (json_text "{}")).2 = None
  ∧ (Assumptions_UnmarshalJSON zero_Assumptions (x20 :: json_text "{}")).2 ≠ None
  ∧ Assumptions_UnmarshalJSON zero_Assumptions (x20 :: json_text "{}")
    ≠ Assumptions_UnmarshalJSON zero_Assumptions (json_text "{}").
Proof.
  repeat split; try reflexivity; vm_compute; discriminate.
Qed.

(** C4, as the code has it.  The decoder returns an error exactly in four
    cases: the input is empty; its first byte is neither [{] nor [[]; the
    first byte is [{] and the input does not decode as an Assumption; the
    first byte is [[] and the input does not decode as a sequence of
    Assumptions.  In the second case the text of the error ends with the
    first byte converted to a string, between brackets. *)
Theorem C4_failures (a : Assumptions) (data : bytes) :
  ((Assumptions_UnmarshalJSON a data).2 ≠ None ↔
     data = []
     ∨ (∃ c, head data = Some c ∧ c ≠ "{"%byte ∧ c ≠ "["%byte)
     ∨ (head data = Some "{"%byte
        ∧ (json.Unmarshal decode_Assumption data zero_Assumption).2 ≠ None)
     ∨ (head data = Some "["%byte
        ∧ (json.Unmarshal
             (json.store_slice decode_Assumption zero_Assumption
                "[]wolfram.Assumption")
             data (Assumptions_Assumption a)).2 ≠ None))
  ∧ (∀ c, head data = Some c → c ≠ "{"%byte → c ≠ "["%byte →
       option_map errors.Error (Assumptions_UnmarshalJSON a data).2
       = Some ("assumptions json does not indicate an object or array ("
                 ++ string_of_byte c ++ ")")).
Proof.
  unfold Assumptions_UnmarshalJSON.
  destruct data as [|c rest].
  { split; [|discriminate]. split; [auto|]. intros _. discriminate. }
  cbn [head].
  destruct (c =? "{")%byte eqn:E1.
  { apply Byte.byte_dec_bl in E1. subst c.
    destruct (json.Unmarshal decode_Assumption _ _) as [x err]. cbn [snd].
    split.
    - split.
      + intros H. right. right. left. auto.
      + intros [H|[(c & [= <-] & H & _)|[[_ H]|[[=] _]]]];
          [discriminate|congruence|exact H].
    - intros c [= <-] H. congruence. }
  destruct (c =? "[")%byte eqn:E2.
  { apply Byte.byte_dec_bl in E2. subst c.
    destruct (json.Unmarshal _ _ _) as [xs err]. cbn [snd].
    split.
    - split.
      + intros H. right. right. right. split; [reflexivity|].
        destruct err; [discriminate|]. exact H.
      + intros [H|[(c & [= <-] & _ & H)|[[[=] _]|[_ H]]]];
          [discriminate|congruence|].
        destruct err; [discriminate|congruence].
    - intros c [= <-] _ H. congruence. }
  cbn [snd]. split.
  - split.
    + intros _. right. left. exists c. repeat split.
      * intros ->. discriminate.
      * intros ->. discriminate.
    + discriminate.
  - intros c' [= <-] _ _. reflexivity.
Qed.

Lemma C4_failures_witness :
  option_map errors.Error
    (Assumptions_UnmarshalJSON zero_Assumptions (json_text "x")).2
  = Some ("assumptions json does not indicate an object or array ("
            ++ string_of_byte "x"%byte ++ ")").
Proof.
  apply (C4_failures zero_Assumptions (json_text "x")); [reflexivity| |];
    discriminate.
Defined.

(** C4 as stated fails: the one byte [{] is not empty and opens a shape,
    yet it is refused (it is not a JSON text). *)
Lemma C4_counterexample :
  (Assumptions_UnmarshalJSON zero_Assumptions ["{"%byte]).2 ≠ None
  ∧ ¬ (["{"%byte] = []
       ∨ (head ["{"%byte] ≠ Some "{"%byte ∧ head ["{"%byte] ≠ Some "["%byte)).
Proof.
  split.
  - vm_compute. discriminate.
  - intros [H|[H _]]; [discriminate|]. now apply H.
Qed.

(** ** The template engine *)

#[local] Arguments String.append : simpl nomatch.

Lemma string_app_nil_r (s : string) : s ++ "" = s.
Proof. induction s as [|c s IH]; cbn; [reflexivity|now rewrite IH]. Qed.

Lemma string_app_assoc (s t u : string) : (s ++ t) ++ u = s ++ t ++ u.
Proof. induction s as [|c s IH]; cbn; [reflexivity|now rewrite IH]. Qed.

Lemma cut_text_plain (s : string) :
  has_start s = false → fasttemplate.cut_text s = Some (s, []).
Proof.
  induction s as [|c r IH]; [reflexivity|].
  cbn [has_start fasttemplate.cut_text].
  destruct r as [|c' r'].
  - intros _. reflexivity.
  - intros H. apply orb_false_elim in H as [H1 H2].
    rewrite H1, (IH H2). reflexivity.
Qed.

Lemma cut_text_start (t s : string) :
  has_start t = false →
  fasttemplate.cut_text (t ++ "${" ++ s) =
    match fasttemplate.cut_tag s with
    | Some (tag, (text, more)) => Some (t, (tag, text) :: more)
    | None => None
    end.
Proof.
  induction t as [|c t IH]; intros Hns.
  - cbn. destruct (fasttemplate.cut_tag s) as [[tag [text more]]|]; reflexivity.
  - change (String c t ++ "${" ++ s) with (String c (t ++ "${" ++ s)).
    cbn [fasttemplate.cut_text].
    assert (Hrest : has_start t = false).
    { destruct t as [|c' t']; [reflexivity|].
      cbn [has_start] in Hns. now apply orb_false_elim in Hns as [_ Hns]. }
    rewrite (IH Hrest).
    assert (Hhere : ∀ c' r', t ++ "${" ++ s = String c' r' →
                      Ascii.eqb c "$" && Ascii.eqb c' "{" = false).
    { intros c' r' E. destruct t as [|c'' t'].
      - cbn in E. injection E as <- _. now rewrite andb_false_r.
      - cbn in E. injection E as <- _.
        cbn [has_start] in Hns. now apply orb_false_elim in Hns as [Hns _]. }
    destruct (t ++ "${" ++ s) as [|c' r'] eqn:E.
    + destruct t; discriminate.
    + rewrite (Hhere c' r' eq_refl).
      destruct (fasttemplate.cut_tag s) as [[tag [text more]]|]; reflexivity.
Qed.

Lemma cut_tag_end (name rest : string) :
  has_end name = false →
  fasttemplate.cut_tag (name ++ "}" ++ rest) =
    match fasttemplate.cut_text rest with
    | Some p => Some (name, p)
    | None => None
    end.
Proof.
  induction name as [|c name IH]; intros Hne.
  - cbn. destruct (fasttemplate.cut_text rest); reflexivity.
  - cbn [has_end] in Hne. apply orb_false_elim in Hne as [Hc Hne].
    change (String c name ++ "}" ++ rest) with (String c (name ++ "}" ++ rest)).
    cbn [fasttemplate.cut_tag]. rewrite Hc, (IH Hne).
    destruct (fasttemplate.cut_text rest); reflexivity.
Qed.

(** A template without tags is cut into itself. *)
Lemma cut_text_no_tag (s text : string) :
  fasttemplate.cut_text s = Some (text, []) → text = s.
Proof.
  revert text. induction s as [|c r IH]; intros text.
  - cbn. now intros [= <-].
  - cbn [fasttemplate.cut_text].
    assert (Hgo : match fasttemplate.cut_text r with
                  | Some (text', more) => Some (String c text', more)
                  | None => None
                  end = Some (text, []) → text = String c r).
    { destruct (fasttemplate.cut_text r) as [[text' more]|]; [|discriminate].
      intros [= <- ->]. now rewrite (IH text' eq_refl). }
    destruct r as [|c' r']; [exact Hgo|].
    destruct (Ascii.eqb c "$" && Ascii.eqb c' "{"); [|exact Hgo].
    destruct (fasttemplate.cut_tag r') as [[tag [text' more]]|]; discriminate.
Qed.

Lemma execute_expand (f : string → string) (text : string)
    (more : list (string * string)) :
  fasttemplate.execute f (text :: map snd more) (map fst more)
  = expand f (text, more).
Proof.
  unfold expand. cbn [fst snd].
  revert text. induction more as [|[tag text'] more IH]; intros text.
  - cbn. now rewrite string_app_nil_r.
  - change (fasttemplate.execute f (text :: map snd ((tag, text') :: more))
              (map fst ((tag, text') :: more)))
      with (text ++ f tag
              ++ fasttemplate.execute f (text' :: map snd more) (map fst more)).
    now rewrite IH.
Qed.

(** What the renderer does, in one equation: it panics when the template
    cannot be cut, and puts the pieces together otherwise. *)
Lemma render_cut (template : string) (m : gmap string string) :
  render template m =
    match fasttemplate.cut_text template with
    | Some p => Returned (expand (fasttemplate.stdTagFunc m) p)
    | None => Panicked "Cannot find end tag"
    end.
Proof.
  unfold render, fasttemplate.New, fasttemplate.NewTemplate.
  destruct (fasttemplate.cut_text template) as [[text more]|] eqn:E;
    [|reflexivity].
  destruct more as [|m0 more].
  - cbn. unfold expand. cbn. rewrite string_app_nil_r.
    now rewrite (cut_text_no_tag _ _ E).
  - unfold fasttemplate.ExecuteString, fasttemplate.ExecuteFuncString.
    cbn [fasttemplate.texts fasttemplate.tags].
    now rewrite (execute_expand _ text (m0 :: more)).
Qed.

(** Every template is text without a start tag, or such text, a start tag
    and a tail; every tail is without an end tag, or a name without an end
    tag, an end tag and a rest.  The equations of C7 and [render_unclosed]
    thus cover every template. *)
Lemma has_start_split (s : string) :
  has_start s = true →
  ∃ text tail, s = text ++ "${" ++ tail ∧ has_start text = false.
Proof.
  induction s as [|c r IH]; [discriminate|].
  cbn [has_start]. destruct r as [|c' r']; [discriminate|].
  destruct (Ascii.eqb c "$" && Ascii.eqb c' "{") eqn:E.
  - intros _. apply andb_prop in E as [E1 E2].
    apply Ascii.eqb_eq in E1, E2. subst c c'.
    exists "", r'. split; reflexivity.
  - cbn [orb]. intros H. destruct (IH H) as (text & tail & Hr & Hns).
    exists (String c text), tail. split.
    + change (String c text ++ "${" ++ tail)
        with (String c (text ++ "${" ++ tail)).
      now rewrite <- Hr.
    + cbn [has_start]. destruct text as [|c'' t']; [reflexivity|].
      cbn in Hr. injection Hr as <- _. now rewrite E, Hns.
Qed.

Lemma has_end_split (s : string) :
  has_end s = true →
  ∃ name rest, s = name ++ "}" ++ rest ∧ has_end name = false.
Proof.
  induction s as [|c r IH]; [discriminate|].
  cbn [has_end]. destruct (Ascii.eqb c "}") eqn:E.
  - intros _. apply Ascii.eqb_eq in E. subst c.
    exists "", r. split; reflexivity.
  - cbn [orb]. intros H. destruct (IH H) as (name & rest & -> & Hne).
    exists (String c name), rest. split; [reflexivity|].
    cbn [has_end]. now rewrite E, Hne.
Qed.

(** A start tag that no end tag follows makes the renderer panic. *)
Lemma render_unclosed (text rest : string) (m : gmap string string) :
  has_start text = false → has_end rest = false →
  render (text ++ "${" ++ rest) m = Panicked "Cannot find end tag".
Proof.
  intros Hs He. rewrite render_cut, (cut_text_start _ _ Hs).
  assert (fasttemplate.cut_tag rest = None) as ->; [|reflexivity].
  induction rest as [|c rest IH]; [reflexivity|].
  cbn [has_end] in He. apply orb_false_elim in He as [Hc He].
  cbn [fasttemplate.cut_tag]. now rewrite Hc, (IH He).
Qed.

(** C7, as the code has it.  The renderer reads the template once, from left
    to right.  Text without a start tag is copied.  A placeholder, that is a
    start tag, a name without an end tag and an end tag, is replaced by the
    value the map holds for the name, and by nothing when the map has no
    entry for it; the value is copied as it is, and rendering goes on with
    what follows the placeholder, provided that can be rendered. *)
Theorem C7_single_pass (m : gmap string string) :
  (∀ text, has_start text = false → render text m = Returned text)
  ∧ (∀ text name rest out,
       has_start text = false → has_end name = false →
       render rest m = Returned out →
       render (text ++ "${" ++ name ++ "}" ++ rest) m
       = Returned (text ++ match m !! name with
                           | Some v => v
                           | None => ""
                           end ++ out)).
Proof.
  split.
  - intros text Hs. rewrite render_cut, (cut_text_plain _ Hs).
    unfold expand. cbn. now rewrite string_app_nil_r.
  - intros text name rest out Hs He.
    rewrite !render_cut, (cut_text_start _ _ Hs), (cut_tag_end _ _ He).
    destruct (fasttemplate.cut_text rest) as [[text' more]|]; [|discriminate].
    intros [= <-]. unfold expand, fasttemplate.stdTagFunc. cbn. reflexivity.
Qed.

(** An unknown placeholder leaves nothing behind, and a value that looks like
    a placeholder is not expanded again. *)
Lemma C7_single_pass_witness :
  render ("Use as " ++ "${" ++ "missing" ++ "}" ++ " or ${desc2}")
    {[ "desc2" := "${word}" ]}
  = Returned ("Use as " ++ "" ++ " or ${word}").
Proof.
  rewrite (proj2 (C7_single_pass {[ "desc2" := "${word}" ]})
             "Use as " "missing" " or ${desc2}" " or ${word}");
    vm_compute; reflexivity.
Defined.

(** C7 as stated fails: a template whose placeholder is not closed is not
    rendered at all. *)
Lemma C7_counterexample :
  render "Use as ${missing" ∅ = Panicked "Cannot find end tag".
Proof. reflexivity. Qed.

(** ** The action builder *)

Lemma fold_left_snoc {A B : Type} (f : A → B) (l : list A) (acc : list B) :
  fold_left (λ acc x, (acc ++ [f x])%list) l acc = (acc ++ map f l)%list.
Proof.
  revert acc. induction l as [|x l IH]; intros acc; cbn.
  - now rewrite app_nil_r.
  - now rewrite IH, <- app_assoc.
Qed.

(** C5, as the code has it.  For an Assumption whose values are a first one
    and at least one other, and whose template can be rendered for each of
    the others, [ForActionDisplay] returns no error and one ActionAssumption
    per other value, in their order: its label is the template rendered with
    the word of the assumption, the description of the first value and the
    description of that value; its action, button label and description are
    the input, name and description of that value. *)
Theorem C5_one_action_per_alternative (assumption : Assumption) (first : Value)
    (others : list Value) (label : Value → string) :
  Assumption_Values assumption = first :: others →
  others ≠ [] →
  (∀ value, value ∈ others →
     render (Assumption_Template assumption)
       (label_map (Assumption_Word assumption) (Value_Description first)
          (Value_Description value))
     = Returned (label value)) →
  Assumption_ForActionDisplay assumption =
    Returned
      (Some (map (λ value,
                    {| ActionAssumption_Label := label value;
                       ActionAssumption_Action := Value_Input value;
                       ActionAssumption_ButtonLabel := Value_Name value;
                       ActionAssumption_Description := Value_Description value |})
                 others),
       None).
Proof.
  intros Hvalues Hothers Hlabel.
  unfold Assumption_ForActionDisplay. rewrite Hvalues.
  destruct others as [|second others]; [congruence|].
  cbn [length Nat.ltb Nat.leb nth drop].
  unfold render in Hlabel.
  destruct (fasttemplate.New (Assumption_Template assumption)) as [t|reason].
  - rewrite fold_left_snoc. cbn [app]. do 3 f_equal.
    apply map_ext_in. intros value Hin.
    apply list_elem_of_In in Hin. specialize (Hlabel value Hin).
    injection Hlabel as <-. reflexivity.
  - specialize (Hlabel second (list_elem_of_here _ _)). discriminate.
Qed.

Lemma C5_one_action_per_alternative_witness :
  Assumption_ForActionDisplay dow_chemical_Assumption =
    Returned
      (Some (map (λ value,
                    {| ActionAssumption_Label :=
                         string_of_list_byte
                           (json_text "Assuming 'dow chemical' is a financial entity. Use as a company instead");
                       ActionAssumption_Action := Value_Input value;
                       ActionAssumption_ButtonLabel := Value_Name value;
                       ActionAssumption_Description := Value_Description value |})
                 [ {| Value_Name := "Company"; Value_Description := "a company";
                      Value_Input := "*C.dow+chemical-_*Company-" |} ]),
       None).
Proof.
  apply (C5_one_action_per_alternative dow_chemical_Assumption
           {| Value_Name := "Financial"; Value_Description := "a financial entity";
              Value_Input := "*C.dow+chemical-_*Financial-" |}).
  - reflexivity.
  - discriminate.
  - intros value Hin. apply list_elem_of_singleton in Hin. subst value.
    vm_compute. reflexivity.
Defined.

(** C5 as stated fails: with two values and a template whose placeholder is
    not closed, nothing is returned. *)
Lemma C5_counterexample :
  (2 ≤ length [zero_Value; zero_Value])%nat
  ∧ Assumption_ForActionDisplay
      {| Assumption_Values := [zero_Value; zero_Value]; Assumption_Type := "";
         Assumption_Word := "w"; Assumption_Template := "Assuming ${word";
         Assumption_Count := 2 |}
    = Panicked "Cannot find end tag".
Proof. split; [cbn; lia|reflexivity]. Qed.

(** C6.  With fewer than two values the call returns the nil pointer and the
    error 'nothing to assume'; and a call that returns an error at all is a
    call on fewer than two values. *)
Theorem C6_nothing_to_assume (assumption : Assumption) :
  ((length (Assumption_Values assumption) < 2)%nat →
     Assumption_ForActionDisplay assumption
     = Returned (None, Some (errors.New "nothing to assume")))
  ∧ (∀ actions e,
       Assumption_ForActionDisplay assumption = Returned (actions, Some e) →
       (length (Assumption_Values assumption) < 2)%nat
       ∧ actions = None ∧ e = errors.New "nothing to assume").
Proof.
  unfold Assumption_ForActionDisplay.
  destruct (Nat.ltb_spec (length (Assumption_Values assumption)) 2) as [Hlt|Hge].
  - split; [reflexivity|]. intros actions e [= <- <-]. auto.
  - split; [lia|]. intros actions e.
    destruct (fasttemplate.New _); discriminate.
Qed.

Lemma C6_nothing_to_assume_witness :
  Assumption_ForActionDisplay
    {| Assumption_Values := [zero_Value]; Assumption_Type := "Clash";
       Assumption_Word := "w"; Assumption_Template := "${word}";
       Assumption_Count := 1 |}
  = Returned (None, Some (errors.New "nothing to assume")).
Proof.
  apply (C6_nothing_to_assume
           {| Assumption_Values := [zero_Value]; Assumption_Type := "Clash";
              Assumption_Word := "w"; Assumption_Template := "${word}";
              Assumption_Count := 1 |}).
  cbn. lia.
Defined.

(** ** The whole-query decode *)

Lemma flat_map_nil_elem {A B : Type} (f : A → list B) (l : list A) (x : A) :
  flat_map f l = [] → x ∈ l → f x = [].
Proof.
  induction l as [|y l IH]; intros Hnil Hin; [inversion Hin|].
  cbn [flat_map] in Hnil. apply app_eq_nil in Hnil as [Hy Hl].
  inversion Hin; subst; auto.
Qed.

(** A field no member is named after keeps its contents. *)
Lemma field_absent {A : Type} (ms : list (string * (bytes * json.value)))
    (name : string) (store : bytes → json.value → A → Dec A) (cur : A) :
  members_named name ms = [] → json.field ms name store cur = (cur, None).
Proof.
  unfold members_named.
  induction ms as [|[k [raw v]] ms IH]; [reflexivity|].
  cbn [List.filter json.field fst].
  destruct (json.key_matches name k); [discriminate|]. exact IH.
Qed.

(** What holds of a field before its members are stored, and is kept by the
    storing of each of them, holds after. *)
Lemma field_invariant {A : Type} (P : A → Prop)
    (ms : list (string * (bytes * json.value))) (name : string)
    (store : bytes → json.value → A → Dec A) (cur : A) :
  P cur →
  (∀ raw v x, v ∈ members_named name ms → P x → P (store raw v x).1) →
  P (json.field ms name store cur).1.
Proof.
  unfold members_named.
  revert cur. induction ms as [|[k [raw v]] ms IH]; intros cur Hcur Hstep;
    [exact Hcur|].
  cbn [List.filter json.field fst] in *.
  destruct (json.key_matches name k).
  - cbn [map snd] in Hstep.
    unfold mbind, json.Dec_bind.
    destruct (store raw v cur) as [x e] eqn:Ex.
    specialize (IH x).
    destruct (json.field ms name store x) as [y e'] eqn:Ey. cbn [fst] in *.
    apply IH.
    + change x with (x, e).1. rewrite <- Ex. apply Hstep; [left|exact Hcur].
    + intros raw' v' x' Hin. apply Hstep. now right.
  - apply IH; assumption.
Qed.

Ltac split_fields :=
  unfold mbind, json.Dec_bind, mret, json.Dec_ret;
  repeat match goal with
         | |- context [json.field ?ms ?name ?store ?cur] =>
             destruct (json.field ms name store cur) as [? ?]; cbn beta iota
         end.

Lemma decode_QueryResult_Query (ms : list (string * (bytes * json.value)))
    (cur : QueryResult) :
  QueryResult_Query (decode_QueryResult (json.Object ms) cur).1
  = (json.field ms "Query" (json.plain json.store_string)
       (QueryResult_Query cur)).1.
Proof.
  unfold decode_QueryResult. split_fields. reflexivity.
Qed.

Lemma decode_QueryResult_Pods (ms : list (string * (bytes * json.value)))
    (cur : QueryResult) :
  QueryResult_Pods (decode_QueryResult (json.Object ms) cur).1
  = (json.field ms "pods"
       (json.plain (json.store_slice decode_Pod zero_Pod "[]wolfram.Pod"))
       (QueryResult_Pods cur)).1.
Proof.
  unfold decode_QueryResult. split_fields. reflexivity.
Qed.

(** The part of the record a member of the [queryresult] objects could
    change is the same after the decode as before it, when the response has
    no such member. *)
Lemma decode_response_keeps {B : Type} (proj : QueryResult → B) (name : string)
    (store : bytes → json.value → B → Dec B) (query : string) (body : bytes)
    (r : QueryResult) :
  (∀ ms cur, proj (decode_QueryResult (json.Object ms) cur).1
             = (json.field ms name store (proj cur)).1) →
  decode_response query body = Returned (Some r, None) →
  response_members name body = [] →
  proj r = proj (set_QueryResult_Query zero_QueryResult query).
Proof.
  intros Hproj Hrun Hnone.
  unfold decode_response, json.Unmarshal in Hrun.
  unfold response_members in Hnone.
  destruct (json.parse body) as [v|]; [|discriminate].
  destruct v as [| | | |vs|top]; try (cbn in Hrun; discriminate).
  cbn [decode_Query_ptr decode_Query default from_option id Query_Result] in Hrun.
  set (r0 := set_QueryResult_Query zero_QueryResult query) in *.
  pose proof (field_invariant (λ x, proj x = proj r0) top "queryresult"
                (json.plain decode_QueryResult) r0 eq_refl) as Hinv.
  unfold mbind, json.Dec_bind, mret, json.Dec_ret in Hrun.
  destruct (json.field top "queryresult" (json.plain decode_QueryResult) r0)
    as [r' e].
  destruct e; [discriminate|]. injection Hrun as <-.
  cbn [fst] in Hinv. apply Hinv.
  intros raw v x Hin Hx. unfold json.plain.
  assert (Hv : match v with
               | json.Object ms => members_named name ms
               | _ => []
               end = []).
  { exact (flat_map_nil_elem _ _ _ Hnone Hin). }
  destruct v as [| | | |vs|ms]; try exact Hx.
  rewrite Hproj, (field_absent _ _ _ _ Hv). exact Hx.
Qed.

(** A query made of letters, digits and [-_.~] only is its own escaped
    form. *)
Lemma QueryEscape_unreserved (s : string) :
  Forall (λ b, url.escape_byte b = [b]) (list_byte_of_string s) →
  url.QueryEscape s = s.
Proof.
  intros H. unfold url.QueryEscape.
  rewrite <- (string_of_list_byte_of_string s) at 2. f_equal.
  induction H as [|b l Hb _ IH]; [reflexivity|].
  cbn [flat_map]. now rewrite Hb, IH.
Qed.

(** C8, as the code has it.  The query is escaped first and the escaped text
    is put into the record before the response is decoded into it.  When the
    decode succeeds and the [queryresult] object of the response has no member
    named [query] (in any letter case), the [Query] field of the result is the
    escaped form of the caller's query. *)
Theorem C8_query_attached (http_Get : string → (bytes * option error) + error)
    (Values : Type) (Values_Encode : Values → string) (c : Client)
    (query : string) (params : option Values) (body : bytes) (r : QueryResult) :
  http_Get (request_url Values Values_Encode c (url.QueryEscape query) params)
    = inl (body, None) →
  Client_GetQueryResult http_Get Values Values_Encode c query params
    = Returned (Some r, None) →
  response_members "Query" body = [] →
  QueryResult_Query r = url.QueryEscape query.
Proof.
  intros Hget Hrun Hnone. unfold Client_GetQueryResult in Hrun.
  rewrite Hget in Hrun.
  exact (decode_response_keeps QueryResult_Query "Query" _ _ _ _
           decode_QueryResult_Query Hrun Hnone).
Qed.

Lemma C8_query_attached_witness :
  ∃ r,
    Client_GetQueryResult
      (answers (json_text "{'queryresult':{'success':true,'numpods':0}}"))
      unit (λ _, "") {| Client_AppID := "DEMO" |}
      "What is the price of gold?" None
    = Returned (Some r, None)
    ∧ QueryResult_Query r = "What+is+the+price+of+gold%3F".
Proof.
  eexists. split; [vm_compute; reflexivity|].
  apply (C8_query_attached
           (answers (json_text "{'queryresult':{'success':true,'numpods':0}}"))
           unit (λ _, "") {| Client_AppID := "DEMO" |}
           "What is the price of gold?" None
           (json_text "{'queryresult':{'success':true,'numpods':0}}"));
    vm_compute; reflexivity.
Defined.

(** C8 as stated fails: the field holds the escaped text, not the text the
    caller gave. *)
Lemma C8_counterexample :
  ∃ r,
    Client_GetQueryResult
      (answers (json_text "{'queryresult':{'success':true,'numpods':0}}"))
      unit (λ _, "") {| Client_AppID := "DEMO" |} "price of gold" None
    = Returned (Some r, None)
    ∧ QueryResult_Query r = "price+of+gold"
    ∧ QueryResult_Query r ≠ "price of gold".
Proof.
  eexists. split; [vm_compute; reflexivity|].
  split; [reflexivity|discriminate].
Qed.

(** A [query] member of the response is stored over the caller's query: the
    field is set before the decode, not after it. *)
Lemma response_query_wins :
  ∃ r,
    Client_GetQueryResult
      (answers (json_text "{'queryresult':{'success':true,'query':'from the server'}}"))
      unit (λ _, "") {| Client_AppID := "DEMO" |} "gold" None
    = Returned (Some r, None)
    ∧ QueryResult_Query r = "from the server".
Proof. eexists. split; [vm_compute; reflexivity|reflexivity]. Qed.

(** C9, as the code has it.  The decode does not look at the success flag
    when it stores the pods: the [Pods] sequence of a decoded result is empty
    when the [queryresult] object of the response has no member named
    [pods]. *)
Theorem C9_pods_from_response (query : string) (body : bytes) (r : QueryResult) :
  decode_response query body = Returned (Some r, None) →
  response_members "pods" body = [] →
  QueryResult_Pods r = [].
Proof.
  intros Hrun Hnone.
  exact (decode_response_keeps QueryResult_Pods "pods" _ _ _ _
           decode_QueryResult_Pods Hrun Hnone).
Qed.

Lemma C9_pods_from_response_witness :
  ∃ r,
    decode_response "gold" (json_text "{'queryresult':{'success':false,'numpods':0}}")
    = Returned (Some r, None)
    ∧ QueryResult_Pods r = [].
Proof.
  eexists. split; [vm_compute; reflexivity|].
  apply (C9_pods_from_response "gold"
           (json_text "{'queryresult':{'success':false,'numpods':0}}"));
    vm_compute; reflexivity.
Defined.

(** C9 as stated fails: a response with [success] false and one pod decodes
    to a result with [Success] false and one pod. *)
Lemma C9_counterexample :
  ∃ r,
    decode_response "gold"
      (json_text "{'queryresult':{'success':false,'pods':[{'title':'Result'}]}}")
    = Returned (Some r, None)
    ∧ QueryResult_Success r = false
    ∧ length (QueryResult_Pods r) = 1%nat.
Proof. eexists. split; [vm_compute; reflexivity|]. split; reflexivity. Qed.

(** ** The examples of the documentation *)

(** The template of the package's documentation, rendered. *)
Lemma render_dow_chemical :
  render (Assumption_Template dow_chemical_Assumption)
    (label_map "dow chemical" "a financial entity" "a company")
  = Returned
      (string_of_list_byte
         (json_text "Assuming 'dow chemical' is a financial entity. Use as a company instead")).
Proof. vm_compute. reflexivity. Qed.

(** White space between the colon and the value of the [assumptions] member
    is not part of the raw bytes the decoder of the document hands over. *)
Lemma assumptions_member_after_spaces :
  ∃ r,
    decode_response "dow+chemical"
      (json_text "{'queryresult':{'success':true, 'assumptions' :   {'word':'dow chemical'} }}")
    = Returned (Some r, None)
    ∧ Assumptions_Count (QueryResult_Assumptions r) = 1%Z
    ∧ map Assumption_Word (Assumptions_Assumption (QueryResult_Assumptions r))
      = ["dow chemical"].
Proof. eexists. split; [vm_compute; reflexivity|]. split; reflexivity. Qed.

(** A whole document: one pod, and one assumption with one alternative. *)
Lemma end_to_end :
  ∃ r a,
    decode_response "dow+chemical"
      (json_text "{'queryresult':{'success':true,'numpods':1,'pods':[{'title':'Result','scanner':'Numeric','subpods':[{'plaintext':'42','img':{}}] ,'numsubpods':1}],'assumptions':{'type':'Clash','word':'dow chemical','count':2,'values':[{'name':'Financial','desc':'a financial entity'},{'name':'Company','desc':'a company','input':'X'}]}}}")
    = Returned (Some r, None)
    ∧ QueryResult_Success r = true
    ∧ map Pod_Title (QueryResult_Pods r) = ["Result"]
    ∧ Assumptions_Assumption (QueryResult_Assumptions r) = [a]
    ∧ Assumption_ForActionDisplay a
      = Returned
          (Some [ {| ActionAssumption_Label := "";
                     ActionAssumption_Action := "X";
                     ActionAssumption_ButtonLabel := "Company";
                     ActionAssumption_Description := "a company" |} ],
           None).
Proof.
  do 2 eexists. split; [vm_compute; reflexivity|].
  repeat split; reflexivity.
Qed.

(** * More of the package *)

(** ** Assumptions.UnmarshalJSON: refusals and failures *)

(** X1.  An input that is empty, or whose first byte opens neither shape, is
    refused without touching the receiver; for the empty input the error is
    'no bytes in assumptions to unmarshall'. *)
Theorem X1_refusal_keeps_receiver (a : Assumptions) (data : bytes) :
  head data ≠ Some "{"%byte → head data ≠ Some "["%byte →
  ∃ e, Assumptions_UnmarshalJSON a data = (a, Some e)
       ∧ (data = [] → e = errors.New "no bytes in assumptions to unmarshall").
Proof.
  intros H1 H2. unfold Assumptions_UnmarshalJSON.
  destruct data as [|c rest]; [eauto|].
  destruct (c =? "{")%byte eqn:E1.
  { apply Byte.byte_dec_bl in E1. now subst c. }
  destruct (c =? "[")%byte eqn:E2.
  { apply Byte.byte_dec_bl in E2. now subst c. }
  eexists. split; [reflexivity|discriminate].
Qed.

Lemma X1_refusal_keeps_receiver_witness :
  ∃ e,
    Assumptions_UnmarshalJSON
      {| Assumptions_Assumption := [dow_chemical_Assumption];
         Assumptions_Count := 1 |} (json_text "null")
    = ({| Assumptions_Assumption := [dow_chemical_Assumption];
          Assumptions_Count := 1 |}, Some e)
    ∧ (json_text "null" = [] →
       e = errors.New "no bytes in assumptions to unmarshall").
Proof.
  apply (X1_refusal_keeps_receiver
           {| Assumptions_Assumption := [dow_chemical_Assumption];
              Assumptions_Count := 1 |} (json_text "null"));
    vm_compute; discriminate.
Defined.

(** X2.  The object shape starts from a fresh one-element sequence: what the
    receiver held before the call has no part in the outcome, be it a success
    or a failure. *)
Theorem X2_object_overwrites (a1 a2 : Assumptions) (data : bytes) :
  head data = Some "{"%byte →
  Assumptions_UnmarshalJSON a1 data = Assumptions_UnmarshalJSON a2 data.
Proof.
  destruct data as [|c rest]; [discriminate|]. intros [= ->].
  unfold Assumptions_UnmarshalJSON.
  change ("{" =? "{")%byte with true. reflexivity.
Qed.

Lemma X2_object_overwrites_witness :
  Assumptions_UnmarshalJSON zero_Assumptions dow_chemical
  = Assumptions_UnmarshalJSON
      {| Assumptions_Assumption := [zero_Assumption; zero_Assumption];
         Assumptions_Count := 2 |} dow_chemical.
Proof.
  apply (X2_object_overwrites zero_Assumptions
           {| Assumptions_Assumption := [zero_Assumption; zero_Assumption];
              Assumptions_Count := 2 |} dow_chemical).
  reflexivity.
Defined.

(** X3.  When the array shape does not decode, the error of the decoder is
    returned under the message 'error interpreting assumption', and [Count]
    is not touched: it keeps the value the receiver held, whatever was stored
    into the sequence before the failure. *)
Theorem X3_array_failure (a : Assumptions) (data : bytes) (cause : error) :
  head data = Some "["%byte →
  (json.Unmarshal
     (json.store_slice decode_Assumption zero_Assumption "[]wolfram.Assumption")
     data (Assumptions_Assumption a)).2 = Some cause →
  (Assumptions_UnmarshalJSON a data).2
    = Some (errors.WithMessage cause "error interpreting assumption")
  ∧ option_map errors.Error (Assumptions_UnmarshalJSON a data).2
    = Some ("error interpreting assumption: " ++ errors.Error cause)
  ∧ Assumptions_Count (Assumptions_UnmarshalJSON a data).1 = Assumptions_Count a.
Proof.
  destruct data as [|c rest]; [discriminate|]. intros [= ->].
  unfold Assumptions_UnmarshalJSON.
  change ("[" =? "{")%byte with false. change ("[" =? "[")%byte with true.
  cbn iota.
  destruct (json.Unmarshal _ _ _) as [xs err]. cbn [snd].
  intros ->. repeat split.
Qed.

Lemma X3_array_failure_witness :
  (Assumptions_UnmarshalJSON
     {| Assumptions_Assumption := []; Assumptions_Count := 7 |}
     (json_text "[{'word':'a'}, 5]")).2
    = Some (errors.WithMessage
              (errors.UnmarshalTypeError "number" "wolfram.Assumption")
              "error interpreting assumption")
  ∧ option_map errors.Error
      (Assumptions_UnmarshalJSON
         {| Assumptions_Assumption := []; Assumptions_Count := 7 |}
         (json_text "[{'word':'a'}, 5]")).2
    = Some ("error interpreting assumption: "
              ++ errors.Error
                   (errors.UnmarshalTypeError "number" "wolfram.Assumption"))
  ∧ Assumptions_Count
      (Assumptions_UnmarshalJSON
         {| Assumptions_Assumption := []; Assumptions_Count := 7 |}
         (json_text "[{'word':'a'}, 5]")).1 = 7%Z.
Proof.
  apply (X3_array_failure
           {| Assumptions_Assumption := []; Assumptions_Count := 7 |}
           (json_text "[{'word':'a'}, 5]")
           (errors.UnmarshalTypeError "number" "wolfram.Assumption"));
    vm_compute; reflexivity.
Defined.

(** X4.  For the object shape the receiver always ends with exactly one
    element and a count of one, also when the decode fails, and the error is
    the decoder's own, without a message around it. *)
Theorem X4_object_outcome (a : Assumptions) (data : bytes) :
  head data = Some "{"%byte →
  length (Assumptions_Assumption (Assumptions_UnmarshalJSON a data).1) = 1%nat
  ∧ Assumptions_Count (Assumptions_UnmarshalJSON a data).1 = 1%Z
  ∧ (Assumptions_UnmarshalJSON a data).2
    = (json.Unmarshal decode_Assumption data zero_Assumption).2.
Proof.
  destruct data as [|c rest]; [discriminate|]. intros [= ->].
  unfold Assumptions_UnmarshalJSON.
  change ("{" =? "{")%byte with true. cbn iota.
  destruct (json.Unmarshal decode_Assumption _ _) as [x err].
  repeat split.
Qed.

Lemma X4_object_outcome_witness :
  length (Assumptions_Assumption
            (Assumptions_UnmarshalJSON zero_Assumptions
               (json_text "{'word': 'dow', 'values': 3}")).1) = 1%nat
  ∧ Assumptions_Count
      (Assumptions_UnmarshalJSON zero_Assumptions
         (json_text "{'word': 'dow', 'values': 3}")).1 = 1%Z
  ∧ (Assumptions_UnmarshalJSON zero_Assumptions
       (json_text "{'word': 'dow', 'values': 3}")).2
    = (json.Unmarshal decode_Assumption
         (json_text "{'word': 'dow', 'values': 3}") zero_Assumption).2.
Proof.
  apply (X4_object_outcome zero_Assumptions
           (json_text "{'word': 'dow', 'values': 3}")).
  reflexivity.
Defined.

(** ** Assumption.ForActionDisplay: what it reads and what it returns *)

Lemma actions_map (assumption : Assumption) (t : fasttemplate.Template) :
  fold_left
    (λ actions value,
       (actions ++
        [ {| ActionAssumption_Label :=
               fasttemplate.ExecuteString t
                 (label_map (Assumption_Word assumption)
                    (Value_Description
                       (nth 0 (Assumption_Values assumption) zero_Value))
                    (Value_Description value));
             ActionAssumption_Action := Value_Input value;
             ActionAssumption_ButtonLabel := Value_Name value;
             ActionAssumption_Description := Value_Description value |} ])%list)
    (drop 1 (Assumption_Values assumption)) []
  = map (λ value,
           {| ActionAssumption_Label :=
                fasttemplate.ExecuteString t
                  (label_map (Assumption_Word assumption)
                     (Value_Description
                        (nth 0 (Assumption_Values assumption) zero_Value))
                     (Value_Description value));
              ActionAssumption_Action := Value_Input value;
              ActionAssumption_ButtonLabel := Value_Name value;
              ActionAssumption_Description := Value_Description value |})
        (drop 1 (Assumption_Values assumption)).
Proof. now rewrite fold_left_snoc. Qed.

(** X7.  When actions are returned there is at least one, there is one less
    than there are values, and their actions, button labels and descriptions
    are the inputs, names and descriptions of the values after the first, in
    order, whatever the template is. *)
Theorem X7_actions_follow_values (assumption : Assumption)
    (actions : list ActionAssumption) :
  Assumption_ForActionDisplay assumption = Returned (Some actions, None) →
  (1 ≤ length actions)%nat
  ∧ length actions = (length (Assumption_Values assumption) - 1)%nat
  ∧ map ActionAssumption_Action actions
    = map Value_Input (drop 1 (Assumption_Values assumption))
  ∧ map ActionAssumption_ButtonLabel actions
    = map Value_Name (drop 1 (Assumption_Values assumption))
  ∧ map ActionAssumption_Description actions
    = map Value_Description (drop 1 (Assumption_Values assumption)).
Proof.
  unfold Assumption_ForActionDisplay.
  destruct (Nat.ltb_spec (length (Assumption_Values assumption)) 2) as [Hlt|Hge];
    [discriminate|].
  destruct (fasttemplate.New _) as [t|reason]; [|discriminate].
  rewrite actions_map. intros [= <-].
  rewrite length_map, length_drop, !map_map. cbn [ActionAssumption_Action
    ActionAssumption_ButtonLabel ActionAssumption_Description].
  repeat split; lia.
Qed.

Lemma X7_actions_follow_values_witness :
  ∃ actions,
    Assumption_ForActionDisplay dow_chemical_Assumption
    = Returned (Some actions, None)
    ∧ length actions = 1%nat
    ∧ map ActionAssumption_ButtonLabel actions = ["Company"].
Proof.
  eexists. split; [vm_compute; reflexivity|].
  split;
    apply (X7_actions_follow_values dow_chemical_Assumption);
    vm_compute; reflexivity.
Defined.

(** X5.  With a template that holds no start tag (the empty template of a
    response without one, for instance) every label is the template itself,
    word and descriptions playing no part. *)
Theorem X5_plain_template (assumption : Assumption) (first : Value)
    (others : list Value) :
  Assumption_Values assumption = first :: others →
  others ≠ [] →
  has_start (Assumption_Template assumption) = false →
  Assumption_ForActionDisplay assumption =
    Returned
      (Some (map (λ value,
                    {| ActionAssumption_Label := Assumption_Template assumption;
                       ActionAssumption_Action := Value_Input value;
                       ActionAssumption_ButtonLabel := Value_Name value;
                       ActionAssumption_Description := Value_Description value |})
                 others),
       None).
Proof.
  intros Hvalues Hothers Hplain.
  unfold Assumption_ForActionDisplay.
  unfold fasttemplate.New, fasttemplate.NewTemplate.
  rewrite (cut_text_plain _ Hplain), actions_map, Hvalues.
  destruct others as [|second others]; [congruence|]. reflexivity.
Qed.

Lemma X5_plain_template_witness :
  Assumption_ForActionDisplay
    {| Assumption_Values := Assumption_Values dow_chemical_Assumption;
       Assumption_Type := "Clash"; Assumption_Word := "dow chemical";
       Assumption_Template := ""; Assumption_Count := 2 |}
  = Returned
      (Some (map (λ value,
                    {| ActionAssumption_Label := "";
                       ActionAssumption_Action := Value_Input value;
                       ActionAssumption_ButtonLabel := Value_Name value;
                       ActionAssumption_Description := Value_Description value |})
                 [ {| Value_Name := "Company"; Value_Description := "a company";
                      Value_Input := "*C.dow+chemical-_*Company-" |} ]),
       None).
Proof.
  apply (X5_plain_template
           {| Assumption_Values := Assumption_Values dow_chemical_Assumption;
              Assumption_Type := "Clash"; Assumption_Word := "dow chemical";
              Assumption_Template := ""; Assumption_Count := 2 |}
           {| Value_Name := "Financial"; Value_Description := "a financial entity";
              Value_Input := "*C.dow+chemical-_*Financial-" |}).
  - reflexivity.
  - discriminate.
  - reflexivity.
Defined.

(** A template cannot be cut exactly when it holds a start tag that no end
    tag follows. *)
Lemma cut_fails_unclosed (n : nat) :
  ∀ s, (String.length s ≤ n)%nat →
    (fasttemplate.cut_text s = None →
       ∃ pre tail, s = pre ++ "${" ++ tail ∧ has_end tail = false)
    ∧ (fasttemplate.cut_tag s = None →
         has_end s = false
         ∨ ∃ pre tail, s = pre ++ "${" ++ tail ∧ has_end tail = false).
Proof.
  induction n as [n IH] using lt_wf_ind. intros s Hn.
  destruct s as [|c r]; [split; [discriminate|auto]|].
  cbn [String.length] in Hn.
  assert (IHr := IH (String.length r) ltac:(lia) r (Nat.le_refl _)).
  split.
  - cbn [fasttemplate.cut_text].
    assert (Hgo : match fasttemplate.cut_text r with
                  | Some (text, more) => Some (String c text, more)
                  | None => None
                  end = None →
                  ∃ pre tail, String c r = pre ++ "${" ++ tail
                              ∧ has_end tail = false).
    { destruct (fasttemplate.cut_text r) as [[text more]|] eqn:E;
        [discriminate|].
      intros _. destruct (proj1 IHr eq_refl) as (pre & tail & -> & Ht).
      exists (String c pre), tail. split; [reflexivity|exact Ht]. }
    destruct r as [|c' r']; [exact Hgo|].
    destruct (Ascii.eqb c "$" && Ascii.eqb c' "{") eqn:E; [|exact Hgo].
    apply andb_prop in E as [E1 E2].
    apply Ascii.eqb_eq in E1, E2. subst c c'.
    cbn [String.length] in Hn.
    assert (IHr' := IH (String.length r') ltac:(lia) r' (Nat.le_refl _)).
    destruct (fasttemplate.cut_tag r') as [[tag [text more]]|] eqn:Et;
      [discriminate|].
    intros _. destruct (proj2 IHr' eq_refl) as [Hne|(pre & tail & -> & Ht)].
    + exists "", r'. split; [reflexivity|exact Hne].
    + exists ("${" ++ pre), tail. split; [reflexivity|exact Ht].
  - cbn [fasttemplate.cut_tag has_end].
    destruct (Ascii.eqb c "}") eqn:E.
    + apply Ascii.eqb_eq in E. subst c.
      destruct (fasttemplate.cut_text r) as [p|] eqn:Et; [discriminate|].
      intros _. right.
      destruct (proj1 IHr eq_refl) as (pre & tail & -> & Ht).
      exists (String "}" pre), tail. split; [reflexivity|exact Ht].
    + destruct (fasttemplate.cut_tag r) as [[tag p]|] eqn:Et; [discriminate|].
      intros _. destruct (proj2 IHr eq_refl) as [Hne|(pre & tail & -> & Ht)].
      * left. exact Hne.
      * right. exists (String c pre), tail. split; [reflexivity|exact Ht].
Qed.

Lemma unclosed_cut_fails (n : nat) (tail : string) :
  has_end tail = false →
  ∀ pre, (String.length pre ≤ n)%nat →
    fasttemplate.cut_text (pre ++ "${" ++ tail) = None
    ∧ fasttemplate.cut_tag (pre ++ "${" ++ tail) = None.
Proof.
  intros Htail.
  assert (Htag : fasttemplate.cut_tag tail = None).
  { induction tail as [|c t IH]; [reflexivity|].
    cbn [has_end] in Htail. apply orb_false_elim in Htail as [Hc Ht].
    cbn [fasttemplate.cut_tag]. now rewrite Hc, (IH Ht). }
  induction n as [n IH] using lt_wf_ind. intros pre Hn.
  destruct pre as [|c pre].
  - cbn. rewrite Htag. split; reflexivity.
  - cbn [String.length] in Hn.
    destruct (IH (String.length pre) ltac:(lia) pre (Nat.le_refl _))
      as [IHtext IHtag].
    change (String c pre ++ "${" ++ tail) with (String c (pre ++ "${" ++ tail)).
    split.
    + cbn [fasttemplate.cut_text]. rewrite IHtext.
      destruct pre as [|c' pre'].
      * cbn. now rewrite andb_false_r.
      * change (String c' pre' ++ "${" ++ tail)
          with (String c' (pre' ++ "${" ++ tail)).
        cbn [String.length] in Hn.
        destruct (IH (String.length pre') ltac:(lia) pre' (Nat.le_refl _))
          as [_ IHtag'].
        rewrite IHtag'. now destruct (Ascii.eqb c "$" && Ascii.eqb c' "{").
    + cbn [fasttemplate.cut_tag]. rewrite IHtext, IHtag.
      now destruct (Ascii.eqb c "}").
Qed.

Lemma cut_text_None (s : string) :
  fasttemplate.cut_text s = None ↔
  ∃ pre tail, s = pre ++ "${" ++ tail ∧ has_end tail = false.
Proof.
  split.
  - apply (cut_fails_unclosed (String.length s) s (Nat.le_refl _)).
  - intros (pre & tail & -> & Ht).
    apply (unclosed_cut_fails (String.length pre) tail Ht pre (Nat.le_refl _)).
Qed.

(** X6.  The call panics exactly when there are at least two values and the
    template holds a start tag [${] that no [}] follows; with fewer than two
    values the template is not looked at. *)
Theorem X6_panic_unclosed_tag (assumption : Assumption) :
  (∃ reason, Assumption_ForActionDisplay assumption = Panicked reason) ↔
  (2 ≤ length (Assumption_Values assumption))%nat
  ∧ ∃ pre tail,
      Assumption_Template assumption = pre ++ "${" ++ tail
      ∧ has_end tail = false.
Proof.
  rewrite <- cut_text_None.
  unfold Assumption_ForActionDisplay, fasttemplate.New, fasttemplate.NewTemplate.
  destruct (Nat.ltb_spec (length (Assumption_Values assumption)) 2) as [Hlt|Hge].
  - split; [intros [reason [=]]|intros [H _]; lia].
  - destruct (fasttemplate.cut_text (Assumption_Template assumption))
      as [[text [|m more]]|].
    + split; [intros [reason [=]]|intros [_ [=]]].
    + split; [intros [reason [=]]|intros [_ [=]]].
    + split; [auto|]. intros _. eexists. reflexivity.
Qed.

Lemma X6_panic_unclosed_tag_witness :
  ∃ reason,
    Assumption_ForActionDisplay
      {| Assumption_Values := [zero_Value; zero_Value]; Assumption_Type := "";
         Assumption_Word := "w"; Assumption_Template := "Use ${desc2} or ${word";
         Assumption_Count := 2 |}
    = Panicked reason.
Proof.
  apply (proj2 (X6_panic_unclosed_tag
                  {| Assumption_Values := [zero_Value; zero_Value];
                     Assumption_Type := ""; Assumption_Word := "w";
                     Assumption_Template := "Use ${desc2} or ${word";
                     Assumption_Count := 2 |})).
  split; [cbn; lia|].
  exists "Use ${desc2} or ", "word". split; reflexivity.
Defined.

(** ** Client.GetQueryResult: what comes back *)

Lemma decode_response_cases (query : string) (body : bytes) :
  (json.parse body = Some json.Null
   ∧ decode_response query body
     = Panicked "invalid memory address or nil pointer dereference")
  ∨ (json.parse body ≠ Some json.Null
     ∧ ((∃ r, decode_response query body = Returned (Some r, None))
        ∨ (∃ cause,
             (json.Unmarshal decode_Query_ptr body
                (Some {| Query_Result :=
                           set_QueryResult_Query zero_QueryResult query |})).2
             = Some cause
             ∧ decode_response query body
               = Returned
                   (None,
                    Some (errors.WithMessage cause
                            "unable to interpret wolfram alpha json result"))))).
Proof.
  unfold decode_response, json.Unmarshal.
  destruct (json.parse body) as [v|].
  2:{ right. split; [discriminate|]. right. eexists. split; reflexivity. }
  destruct v as [|b|lit|s|vs|top];
    [left; split; reflexivity|right; split; [discriminate|]..].
  all: cbn [decode_Query_ptr]; unfold mbind, json.Dec_bind, mret, json.Dec_ret.
  all: destruct (decode_Query _ _) as [q [e|]]; cbn [snd];
    [right; eexists; split; reflexivity|left; eexists; reflexivity].
Qed.

(** X8.  When the call returns, it returns either a result and no error or
    an error and no result: never both, never neither. *)
Theorem X8_result_or_error (http_Get : string → (bytes * option error) + error)
    (Values : Type) (Values_Encode : Values → string) (c : Client)
    (query : string) (params : option Values) (r : option QueryResult)
    (e : option error) :
  Client_GetQueryResult http_Get Values Values_Encode c query params
    = Returned (r, e) →
  (is_Some r ∧ e = None) ∨ (r = None ∧ is_Some e).
Proof.
  unfold Client_GetQueryResult.
  destruct (http_Get _) as [[body [err|]]|err].
  - intros [= <- <-]. right. eauto.
  - destruct (decode_response_cases (url.QueryEscape query) body)
      as [[_ ->]|[_ [[r' ->]|(cause & _ & ->)]]].
    + discriminate.
    + intros [= <- <-]. left. eauto.
    + intros [= <- <-]. right. eauto.
  - intros [= <- <-]. right. eauto.
Qed.

Lemma X8_result_or_error_witness :
  ∃ r e,
    Client_GetQueryResult (answers (json_text "<html>")) unit (λ _, "")
      {| Client_AppID := "DEMO" |} "gold" None
    = Returned (r, e)
    ∧ ((is_Some r ∧ e = None) ∨ (r = None ∧ is_Some e)).
Proof.
  do 2 eexists. split; [vm_compute; reflexivity|].
  apply (X8_result_or_error (answers (json_text "<html>")) unit (λ _, "")
           {| Client_AppID := "DEMO" |} "gold" None).
  vm_compute. reflexivity.
Defined.

(** X9.  The call panics, on a nil pointer, exactly when the request and the
    reading of the body succeed and the body is the JSON text [null]: the
    decoder then sets the pointer to nil, and the address of its field is
    taken. *)
Theorem X9_panic_on_null (http_Get : string → (bytes * option error) + error)
    (Values : Type) (Values_Encode : Values → string) (c : Client)
    (query : string) (params : option Values) :
  (∃ reason,
     Client_GetQueryResult http_Get Values Values_Encode c query params
     = Panicked reason) ↔
  ∃ body,
    http_Get (request_url Values Values_Encode c (url.QueryEscape query) params)
      = inl (body, None)
    ∧ json.parse body = Some json.Null.
Proof.
  unfold Client_GetQueryResult.
  destruct (http_Get _) as [[body [err|]]|err].
  - split; [intros [reason [=]]|intros (b & [=] & _)].
  - destruct (decode_response_cases (url.QueryEscape query) body)
      as [[Hnull ->]|[Hnot [[r' ->]|(cause & _ & ->)]]].
    + split; eauto.
    + split; [intros [reason [=]]|intros (b & [= <-] & H); contradiction].
    + split; [intros [reason [=]]|intros (b & [= <-] & H); contradiction].
  - split; [intros [reason [=]]|intros (b & [=] & _)].
Qed.

Lemma X9_panic_on_null_witness :
  ∃ reason,
    Client_GetQueryResult (answers (json_text " null ")) unit (λ _, "")
      {| Client_AppID := "DEMO" |} "gold" None
    = Panicked reason.
Proof.
  apply (proj2 (X9_panic_on_null (answers (json_text " null ")) unit (λ _, "")
                  {| Client_AppID := "DEMO" |} "gold" None)).
  exists (json_text " null "). split; reflexivity.
Defined.

(** X10.  Every error the call returns is the error of one of its three
    steps under the message of that step: the request, the reading of the
    body, the decoding of the body. *)
Theorem X10_error_context (http_Get : string → (bytes * option error) + error)
    (Values : Type) (Values_Encode : Values → string) (c : Client)
    (query : string) (params : option Values) (r : option QueryResult)
    (e : error) :
  Client_GetQueryResult http_Get Values Values_Encode c query params
    = Returned (r, Some e) →
  ∃ cause context,
    e = errors.WithMessage cause context
    ∧ errors.Error e = context ++ ": " ++ errors.Error cause
    ∧ let answer :=
        http_Get (request_url Values Values_Encode c (url.QueryEscape query)
                    params) in
      (answer = inr cause ∧ context = "error in wolfram alpha http request")
      ∨ (∃ body, answer = inl (body, Some cause)
                 ∧ context = "error in obtaining full wolfram alpha http result")
      ∨ (∃ body, answer = inl (body, None)
                 ∧ (json.Unmarshal decode_Query_ptr body
                      (Some {| Query_Result :=
                                 set_QueryResult_Query zero_QueryResult
                                   (url.QueryEscape query) |})).2 = Some cause
                 ∧ context = "unable to interpret wolfram alpha json result").
Proof.
  unfold Client_GetQueryResult. cbv zeta.
  destruct (http_Get _) as [[body [err|]]|err].
  - intros [= <- <-]. exists err. eexists. repeat split. right. left. eauto.
  - destruct (decode_response_cases (url.QueryEscape query) body)
      as [[_ ->]|[_ [[r' ->]|(cause & Hc & ->)]]]; try discriminate.
    intros [= <- <-]. exists cause. eexists. repeat split.
    right. right. eauto.
  - intros [= <- <-]. exists err. eexists. repeat split. left. eauto.
Qed.

Lemma X10_error_context_witness :
  ∃ cause context,
    errors.WithMessage (errors.New "no route to host")
      "error in wolfram alpha http request"
    = errors.WithMessage cause context
    ∧ errors.Error
        (errors.WithMessage (errors.New "no route to host")
           "error in wolfram alpha http request")
      = context ++ ": " ++ errors.Error cause
    ∧ let answer : (bytes * option error) + error :=
        inr (errors.New "no route to host") in
      (answer = inr cause ∧ context = "error in wolfram alpha http request")
      ∨ (∃ body, answer = inl (body, Some cause)
                 ∧ context = "error in obtaining full wolfram alpha http result")
      ∨ (∃ body, answer = inl (body, None)
                 ∧ (json.Unmarshal decode_Query_ptr body
                      (Some {| Query_Result :=
                                 set_QueryResult_Query zero_QueryResult
                                   (url.QueryEscape "gold") |})).2 = Some cause
                 ∧ context = "unable to interpret wolfram alpha json result").
Proof.
  apply (X10_error_context (λ _, inr (errors.New "no route to host")) unit
           (λ _, "") {| Client_AppID := "DEMO" |} "gold" None None).
  reflexivity.
Defined.

(** ** The assumptions of a decoded document *)

Lemma hook_count (a a' : Assumptions) (data : bytes) :
  Assumptions_UnmarshalJSON a data = (a', None) →
  (head data = Some "{"%byte ∨ head data = Some "["%byte)
  ∧ Assumptions_Count a' = Z.of_nat (length (Assumptions_Assumption a')).
Proof.
  unfold Assumptions_UnmarshalJSON.
  destruct data as [|c rest]; [discriminate|].
  destruct (c =? "{")%byte eqn:E1.
  - apply Byte.byte_dec_bl in E1. subst c.
    destruct (json.Unmarshal decode_Assumption _ _) as [x err].
    intros [= <- _]. split; [left|]; reflexivity.
  - destruct (c =? "[")%byte eqn:E2; [|discriminate].
    apply Byte.byte_dec_bl in E2. subst c.
    destruct (json.Unmarshal _ _ _) as [xs [e|]]; [discriminate|].
    intros [= <-]. split; [right|]; reflexivity.
Qed.

Lemma decode_Assumptions_ok (raw : bytes) (v : json.value) (x y : Assumptions) :
  decode_Assumptions raw v x = (y, None) →
  Assumptions_UnmarshalJSON x raw = (y, None).
Proof.
  unfold decode_Assumptions.
  destruct (Assumptions_UnmarshalJSON x raw) as [a [e|]]; [discriminate|].
  now intros [= <-].
Qed.

(** A field stored without error: every member named after it was stored
    without error, and what the storing keeps, the field keeps. *)
Lemma field_success {A : Type} (P : A → Prop)
    (ms : list (string * (bytes * json.value))) (name : string)
    (store : bytes → json.value → A → Dec A) (cur z : A) :
  json.field ms name store cur = (z, None) →
  Forall (λ m, json.key_matches name m.1 = true →
               ∃ x y, store m.2.1 m.2.2 x = (y, None)) ms
  ∧ (P cur →
     (∀ raw v x y, store raw v x = (y, None) → P x → P y) →
     P z).
Proof.
  revert cur z. induction ms as [|[k [raw v]] ms IH]; intros cur z.
  - cbn. intros [= <-]. split; [constructor|auto].
  - cbn [json.field fst snd].
    destruct (json.key_matches name k) eqn:Ek.
    + unfold mbind, json.Dec_bind.
      destruct (store raw v cur) as [x e] eqn:Ex.
      destruct (json.field ms name store x) as [y e'] eqn:Ey.
      destruct e; [discriminate|]. intros [= <- ->].
      destruct (IH x y Ey) as [Hall Hinv]. split.
      * constructor; [|exact Hall]. cbn. intros _. eauto.
      * intros Hcur Hstep. apply Hinv; [|exact Hstep].
        exact (Hstep _ _ _ _ Ex Hcur).
    + intros Hrun. destruct (IH cur z Hrun) as [Hall Hinv]. split.
      * constructor; [|exact Hall]. cbn [fst]. rewrite Ek. discriminate.
      * exact Hinv.
Qed.

Lemma decode_QueryResult_Assumptions_ok
    (ms : list (string * (bytes * json.value))) (cur r : QueryResult) :
  decode_QueryResult (json.Object ms) cur = (r, None) →
  json.field ms "assumptions" decode_Assumptions (QueryResult_Assumptions cur)
  = (QueryResult_Assumptions r, None).
Proof.
  unfold decode_QueryResult. split_fields.
  repeat match goal with
         | e : option error |- _ => destruct e; [discriminate|]
         end.
  intros [= <-]. reflexivity.
Qed.

(** The result of a whole decode that succeeded, seen from the members of
    the document. *)
Lemma decode_response_success (query : string) (body : bytes) (r : QueryResult) :
  decode_response query body = Returned (Some r, None) →
  ∃ top,
    json.parse body = Some (json.Object top)
    ∧ json.field top "queryresult" (json.plain decode_QueryResult)
        (set_QueryResult_Query zero_QueryResult query)
      = (r, None).
Proof.
  unfold decode_response, json.Unmarshal.
  destruct (json.parse body) as [v|]; [|discriminate].
  destruct v as [| | | |vs|top]; try (intros H; cbn in H; discriminate H).
  cbn [decode_Query_ptr decode_Query default from_option id Query_Result].
  unfold mbind, json.Dec_bind, mret, json.Dec_ret.
  destruct (json.field top "queryresult" _ _) as [r' [e|]] eqn:E;
    [discriminate|].
  intros [= <-]. exists top. split; [reflexivity|exact E].
Qed.

(** X11.  In every result of [GetQueryResult] the count of the assumptions
    is the number of assumptions decoded, zero for a response without
    assumptions: the count of the wire is never what is reported. *)
Theorem X11_result_count_is_length
    (http_Get : string → (bytes * option error) + error) (Values : Type)
    (Values_Encode : Values → string) (c : Client) (query : string)
    (params : option Values) (r : QueryResult) :
  Client_GetQueryResult http_Get Values Values_Encode c query params
    = Returned (Some r, None) →
  Assumptions_Count (QueryResult_Assumptions r)
  = Z.of_nat (length (Assumptions_Assumption (QueryResult_Assumptions r))).
Proof.
  unfold Client_GetQueryResult.
  destruct (http_Get _) as [[body [err|]]|err]; try discriminate.
  intros Hrun. apply decode_response_success in Hrun as (top & _ & Hfield).
  set (P := λ x : QueryResult,
         Assumptions_Count (QueryResult_Assumptions x)
         = Z.of_nat (length (Assumptions_Assumption (QueryResult_Assumptions x)))).
  apply (proj2 (field_success P _ _ _ _ _ Hfield)); [reflexivity|].
  intros raw v x y Hstore Hx. unfold json.plain in Hstore.
  destruct v as [| | | |vs|ms]; try (cbn in Hstore; discriminate Hstore).
  { cbn in Hstore. injection Hstore as <-. exact Hx. }
  apply decode_QueryResult_Assumptions_ok in Hstore.
  set (Q := λ a : Assumptions,
         Assumptions_Count a = Z.of_nat (length (Assumptions_Assumption a))).
  apply (proj2 (field_success Q _ _ _ _ _ Hstore)); [exact Hx|].
  intros raw' v' a a' Hhook _.
  apply decode_Assumptions_ok in Hhook. exact (proj2 (hook_count _ _ _ Hhook)).
Qed.

Lemma X11_result_count_is_length_witness :
  ∃ r,
    Client_GetQueryResult
      (answers (json_text "{'queryresult':{'success':true,'assumptions':{'type':'Clash','word':'dow chemical','count':2,'values':[{'name':'Financial'},{'name':'Company'}]}}}"))
      unit (λ _, "") {| Client_AppID := "DEMO" |} "dow chemical" None
    = Returned (Some r, None)
    ∧ Assumptions_Count (QueryResult_Assumptions r) = 1%Z
    ∧ map Assumption_Count (Assumptions_Assumption (QueryResult_Assumptions r))
      = [2%Z].
Proof.
  eexists. split; [vm_compute; reflexivity|]. split; [|reflexivity].
  apply (X11_result_count_is_length
           (answers (json_text "{'queryresult':{'success':true,'assumptions':{'type':'Clash','word':'dow chemical','count':2,'values':[{'name':'Financial'},{'name':'Company'}]}}}"))
           unit (λ _, "") {| Client_AppID := "DEMO" |} "dow chemical" None).
  vm_compute. reflexivity.
Defined.

Lemma scalar_not_container (s : bytes) (v : json.value) (r : bytes) :
  json.scalar s = Some (v, r) → is_container v = false.
Proof.
  unfold json.scalar. destruct s as [|c r0]; [discriminate|].
  destruct (Byte.eqb c x22).
  { destruct (json.string_body r0) as [[b rest]|]; [|discriminate].
    now intros [= <- _]. }
  destruct (Byte.eqb c "t").
  { destruct (json.strip_prefix _ r0); [|discriminate]. now intros [= <- _]. }
  destruct (Byte.eqb c "f").
  { destruct (json.strip_prefix _ r0); [|discriminate]. now intros [= <- _]. }
  destruct (Byte.eqb c "n").
  { destruct (json.strip_prefix _ r0); [|discriminate]. now intros [= <- _]. }
  destruct (json.scan_number (c :: r0)) as [[lit rest]|]; [|discriminate].
  now intros [= <- _].
Qed.

(** The first byte of a value tells whether it is a container. *)
Lemma parse_value_shape (n : nat) (s : bytes) (v : json.value) (r : bytes) :
  json.parse_value n s = Some (v, r) →
  is_container v = true ↔ (head s = Some "{"%byte ∨ head s = Some "["%byte).
Proof.
  destruct n as [|n]; [discriminate|]. cbn [json.parse_value].
  destruct s as [|c r0]; [discriminate|]. cbn [head].
  destruct (Byte.eqb c "[") eqn:E1.
  { apply Byte.byte_dec_bl in E1. subst c.
    destruct (json.skip_ws r0) as [|c' r']; [discriminate|].
    destruct (Byte.eqb c' "]").
    - intros [= <- _]. split; auto.
    - destruct (json.parse_elements n _) as [[vs rest]|]; [|discriminate].
      intros [= <- _]. split; auto. }
  destruct (Byte.eqb c "{") eqn:E2.
  { apply Byte.byte_dec_bl in E2. subst c.
    destruct (json.skip_ws r0) as [|c' r']; [discriminate|].
    destruct (Byte.eqb c' "}").
    - intros [= <- _]. split; auto.
    - destruct (json.parse_members n _) as [[ms rest]|]; [|discriminate].
      intros [= <- _]. split; auto. }
  intros Hs. rewrite (scalar_not_container _ _ _ Hs). split; [discriminate|].
  intros [[= ->]|[= ->]]; discriminate.
Qed.

Lemma parse_value_Object (n : nat) (s : bytes)
    (ms : list (string * (bytes * json.value))) (r : bytes) :
  json.parse_value n s = Some (json.Object ms, r) →
  ms = [] ∨ ∃ n' s', json.parse_members n' s' = Some (ms, r).
Proof.
  destruct n as [|n]; [discriminate|]. cbn [json.parse_value].
  destruct s as [|c r0]; [discriminate|].
  destruct (Byte.eqb c "[").
  { destruct (json.skip_ws r0) as [|c' r']; [discriminate|].
    destruct (Byte.eqb c' "]"); [discriminate|].
    destruct (json.parse_elements n _) as [[vs rest]|]; discriminate. }
  destruct (Byte.eqb c "{").
  { destruct (json.skip_ws r0) as [|c' r']; [discriminate|].
    destruct (Byte.eqb c' "}"); [intros [= <- _]; auto|].
    destruct (json.parse_members n _) as [[ms' rest]|] eqn:E; [|discriminate].
    intros [= <- <-]. eauto. }
  intros Hs. apply scalar_not_container in Hs. discriminate.
Qed.

(** The raw bytes kept for a member begin with the first byte of its value:
    they open a container exactly when the value is one. *)
Lemma members_shape (n : nat) (s : bytes)
    (ms : list (string * (bytes * json.value))) (rest : bytes) :
  json.parse_members n s = Some (ms, rest) →
  Forall (λ m,
            (is_container m.2.2 = true ↔
               (head m.2.1 = Some "{"%byte ∨ head m.2.1 = Some "["%byte))
            ∧ ∃ n' s' r', json.parse_value n' s' = Some (m.2.2, r')) ms.
Proof.
  revert s ms rest. induction n as [|n IH]; intros s ms rest; [discriminate|].
  cbn [json.parse_members].
  destruct s as [|q r0]; [discriminate|].
  destruct (Byte.eqb q x22); [|discriminate].
  destruct (json.string_body r0) as [[k r1]|]; [|discriminate].
  destruct (json.skip_ws r1) as [|c r2]; [discriminate|].
  destruct (Byte.eqb c ":"); [|discriminate].
  destruct (json.parse_value n (json.skip_ws r2)) as [[v r3]|] eqn:Ev;
    [|discriminate].
  assert (Hm : (is_container v = true ↔
                  (head (json.consumed (json.skip_ws r2) r3) = Some "{"%byte
                   ∨ head (json.consumed (json.skip_ws r2) r3) = Some "["%byte))
               ∧ ∃ n' s' r', json.parse_value n' s' = Some (v, r')).
  { split; [|eauto]. rewrite (parse_value_shape _ _ _ _ Ev).
    pose proof (proj1 (parse_progress n) _ _ _ Ev) as Hlt.
    unfold json.consumed. destruct (json.skip_ws r2) as [|c0 s0]; [cbn in Hlt; lia|].
    destruct (length (c0 :: s0) - length r3)%nat eqn:El; [cbn in *; lia|].
    reflexivity. }
  destruct (json.skip_ws r3) as [|c' r4]; [discriminate|].
  destruct (Byte.eqb c' ",").
  - destruct (json.parse_members n (json.skip_ws r4)) as [[ms' rest']|] eqn:E';
      [|discriminate].
    intros [= <- <-]. constructor; [exact Hm|]. exact (IH _ _ _ E').
  - destruct (Byte.eqb c' "}"); [|discriminate].
    intros [= <- <-]. constructor; [exact Hm|constructor].
Qed.

Lemma members_of_Object (n : nat) (s : bytes)
    (ms : list (string * (bytes * json.value))) (r : bytes) :
  json.parse_value n s = Some (json.Object ms, r) →
  Forall (λ m,
            (is_container m.2.2 = true ↔
               (head m.2.1 = Some "{"%byte ∨ head m.2.1 = Some "["%byte))
            ∧ ∃ n' s' r', json.parse_value n' s' = Some (m.2.2, r')) ms.
Proof.
  intros H. destruct (parse_value_Object _ _ _ _ H) as [->|(n' & s' & Hm)].
  - constructor.
  - exact (members_shape _ _ _ _ Hm).
Qed.

(** X12.  A document decodes only if every [assumptions] member of its
    [queryresult] object is an array or an object: a string, a number, a
    boolean or [null] in its place makes the whole decode fail. *)
Theorem X12_assumptions_member_is_container (query : string) (body : bytes)
    (r : QueryResult) :
  decode_response query body = Returned (Some r, None) →
  Forall (λ v, is_container v = true) (response_members "assumptions" body).
Proof.
  intros Hrun. apply decode_response_success in Hrun as (top & Hparse & Hfield).
  unfold response_members. rewrite Hparse.
  unfold json.parse in Hparse.
  destruct (json.parse_value _ _) as [[v0 rest]|] eqn:Hv; [|discriminate].
  destruct (json.skip_ws rest); [|discriminate]. injection Hparse as ->.
  pose proof (members_of_Object _ _ _ _ Hv) as Htop.
  pose proof (proj1 (field_success (λ _, True) _ _ _ _ _ Hfield)) as Hstored.
  apply List.Forall_forall. intros v Hin.
  apply in_flat_map in Hin as (w & Hw & Hin).
  unfold members_named in Hw.
  apply in_map_iff in Hw as ([k [raw w']] & Heq & Hw). cbn in Heq. subst w'.
  apply filter_In in Hw as [Hw Hk]. cbn [fst] in Hk.
  destruct w as [| | | |vs|ms]; try contradiction.
  rewrite List.Forall_forall in Htop, Hstored.
  destruct (Htop _ Hw) as [_ (n' & s' & r' & Hobj)].
  destruct (Hstored _ Hw Hk) as (x & y & Hdec). cbn [fst snd] in Hdec, Hobj.
  unfold json.plain in Hdec.
  apply decode_QueryResult_Assumptions_ok in Hdec.
  pose proof (proj1 (field_success (λ _, True) _ _ _ _ _ Hdec)) as Hhooks.
  pose proof (members_of_Object _ _ _ _ Hobj) as Hms.
  unfold members_named in Hin.
  apply in_map_iff in Hin as ([k' [raw' v']] & Heq & Hin). cbn in Heq. subst v'.
  apply filter_In in Hin as [Hin Hk']. cbn [fst] in Hk'.
  rewrite List.Forall_forall in Hms, Hhooks.
  destruct (Hms _ Hin) as [Hshape _].
  destruct (Hhooks _ Hin Hk') as (a & a' & Hhook). cbn [fst snd] in *.
  apply decode_Assumptions_ok, hook_count in Hhook as [Hhead _].
  now apply Hshape.
Qed.

Lemma X12_assumptions_member_is_container_witness :
  ∃ r,
    decode_response "pi"
      (json_text "{'queryresult':{'success':true,'assumptions':[{'word':'pi'}]}}")
    = Returned (Some r, None)
    ∧ Forall (λ v, is_container v = true)
        (response_members "assumptions"
           (json_text "{'queryresult':{'success':true,'assumptions':[{'word':'pi'}]}}")).
Proof.
  eexists. split; [vm_compute; reflexivity|].
  eapply (X12_assumptions_member_is_container "pi"
            (json_text "{'queryresult':{'success':true,'assumptions':[{'word':'pi'}]}}")).
  vm_compute. reflexivity.
Defined.

(** An [assumptions] member that is [null] is refused, and the document with
    it. *)
Lemma null_assumptions_refused :
  decode_response "pi"
    (json_text "{'queryresult':{'success':true,'assumptions':null}}")
  = Returned
      (None,
       Some (errors.WithMessage
               (errors.UnmarshalerError
                  "assumptions json does not indicate an object or array (n)")
               "unable to interpret wolfram alpha json result")).
Proof. vm_compute. reflexivity. Qed.

(** ** The requests *)

Lemma escape_byte_safe (c : byte) :
  forallb url_safe (url.escape_byte c) = true.
Proof. destruct c; reflexivity. Qed.

Lemma QueryEscape_safe (s : string) :
  forallb url_safe (list_byte_of_string (url.QueryEscape s)) = true.
Proof.
  unfold url.QueryEscape. rewrite list_byte_of_string_of_list_byte.
  induction (list_byte_of_string s) as [|c l IH]; [reflexivity|].
  cbn [flat_map]. now rewrite forallb_app, escape_byte_safe, IH.
Qed.

(** X13.  The requests of [GetShortAnswerQuery] and [GetSpokenAnswerQuery]
    differ in the end point only.  Each holds the application id, then the
    query in escaped form, made of letters, digits, [-_.~], [+] and [%] only,
    so that nothing of the caller's text can close the parameter or open
    another; then the units, for the two known units only; then the timeout,
    unless it is zero. *)
Theorem X13_answer_requests (c : Client) (query : string) (units : Unit)
    (timeout : Z) :
  let parameters :=
    (if (units =? Imperial)%Z then "&units=imperial"
     else if (units =? Metric)%Z then "&units=metric" else "")
    ++ (if (timeout =? 0)%Z then "" else "&timeout=" ++ strconv.Itoa timeout) in
  short_answer_url c query units timeout
  = "https://api.wolframalpha.com/v1/result?appid=" ++ Client_AppID c ++ "&i="
      ++ url.QueryEscape query ++ parameters ++ "&output=json"
  ∧ spoken_answer_url c query units timeout
    = "https://api.wolframalpha.com/v1/spoken?appid=" ++ Client_AppID c ++ "&i="
        ++ url.QueryEscape query ++ parameters ++ "&output=json"
  ∧ forallb url_safe (list_byte_of_string (url.QueryEscape query)) = true.
Proof.
  cbv zeta. unfold short_answer_url, spoken_answer_url, answer_query.
  repeat split; [| |apply QueryEscape_safe];
    destruct (units =? Imperial)%Z, (units =? Metric)%Z, (timeout =? 0)%Z;
    cbn [negb fmt.Sprintf]; cbn;
    rewrite ?string_app_assoc, ?string_app_nil_r; reflexivity.
Qed.

(** X14.  For a query made of letters, digits and [-_.~] only, and a response
    without a [query] member, the [Query] field of the result is the text the
    caller gave. *)
Theorem X14_plain_query_kept
    (http_Get : string → (bytes * option error) + error) (Values : Type)
    (Values_Encode : Values → string) (c : Client) (query : string)
    (params : option Values) (body : bytes) (r : QueryResult) :
  Forall (λ b, url.shouldEscape b = false) (list_byte_of_string query) →
  http_Get (request_url Values Values_Encode c (url.QueryEscape query) params)
    = inl (body, None) →
  Client_GetQueryResult http_Get Values Values_Encode c query params
    = Returned (Some r, None) →
  response_members "Query" body = [] →
  QueryResult_Query r = query.
Proof.
  intros Hplain Hget Hrun Hnone.
  assert (Hsame : url.QueryEscape query = query).
  { apply QueryEscape_unreserved.
    eapply List.Forall_impl; [|exact Hplain].
    intros b Hb. unfold url.escape_byte. rewrite Hb.
    destruct (Byte.eqb b " ") eqn:E; [|reflexivity].
    apply Byte.byte_dec_bl in E. subst b. discriminate. }
  unfold Client_GetQueryResult in Hrun. rewrite Hget, Hsame in Hrun.
  exact (decode_response_keeps QueryResult_Query "Query" _ _ _ _
           decode_QueryResult_Query Hrun Hnone).
Qed.

Lemma X14_plain_query_kept_witness :
  ∃ r,
    Client_GetQueryResult
      (answers (json_text "{'queryresult':{'success':true,'numpods':0}}"))
      unit (λ _, "") {| Client_AppID := "DEMO" |} "pi" None
    = Returned (Some r, None)
    ∧ QueryResult_Query r = "pi".
Proof.
  eexists. split; [vm_compute; reflexivity|].
  apply (X14_plain_query_kept
           (answers (json_text "{'queryresult':{'success':true,'numpods':0}}"))
           unit (λ _, "") {| Client_AppID := "DEMO" |} "pi" None
           (json_text "{'queryresult':{'success':true,'numpods':0}}")).
  - repeat constructor.
  - reflexivity.
  - vm_compute. reflexivity.
  - vm_compute. reflexivity.
Defined.

(** X15.  [GetSimpleQuery] hands back the URL it requested together with the
    body that request gave; when the request fails it hands back no body and
    the empty URL, with the error of the request as it is. *)
Theorem X15_simple_query (http_Get : string → (bytes * option error) + error)
    (Values : Type) (Values_Encode : Values → string) (c : Client)
    (query : string) (params : option Values) :
  match Client_GetSimpleQuery http_Get Values Values_Encode c query params with
  | (Some body, url, None) =>
      url = simple_url Values Values_Encode c query params
      ∧ http_Get url = inl body
  | (None, url, Some err) =>
      url = ""
      ∧ http_Get (simple_url Values Values_Encode c query params) = inr err
  | _ => False
  end.
Proof.
  unfold Client_GetSimpleQuery.
  destruct (http_Get _) as [body|err] eqn:E; auto.
Qed.
